(** * The bot model of mattermost-server ([model/bot.go])

    A shallow embedding of [model/bot.go] and of the parts of the Go
    standard library it calls ([unicode/utf8], [strconv],
    [encoding/json]), followed by the properties of the bot entity:
    validation, patching, the wire codec, the cache token and the
    projection to a user record.

    Conventions.
    - A Go [string] is a sequence of bytes: [string] (a list of [ascii]).
    - [int] and [int64] are [Z]; the code does no arithmetic on them, the
      64-bit range only matters to the decoder and is the predicate
      [int64_range].
    - A pointer [*T] that may be nil is [option T], [None] being nil.
      Methods are modelled on a non-nil receiver.
    - A method that mutates its receiver returns the new value. *)

From Stdlib Require Import String Ascii ZArith NArith List Bool Lia Permutation.
From Stdlib Require Import DecimalString DecimalZ DecimalN DecimalPos DecimalFacts.
Import ListNotations.

#[local] Set Warnings "-register-all".
#[local] Open Scope string_scope.
#[local] Open Scope Z_scope.

(* ================================================================= *)
(** ** Bytes *)

Definition byte_val (c : ascii) : N := N_of_ascii c.

Definition byte_in (lo hi : N) (c : ascii) : bool :=
  ((lo <=? byte_val c) && (byte_val c <=? hi))%N.

(** The double quote and the backslash, by their codes. *)
Definition dquote : ascii := "034"%char.
Definition backslash : ascii := "092"%char.

Definition str1 (c : ascii) : string := String c EmptyString.

(** Go's built-in [len] on a string: the number of bytes. *)
Definition len (s : string) : Z := Z.of_nat (String.length s).

Definition int64_range (z : Z) : Prop := - 2 ^ 63 <= z < 2 ^ 63.

Definition int64_rangeb (z : Z) : bool := (- 2 ^ 63 <=? z) && (z <? 2 ^ 63).

(* ================================================================= *)
(** ** [unicode/utf8] *)

Module utf8.

(** Continuation bytes: [locb .. hicb]. *)
Definition cont (c : ascii) : bool := byte_in 128 191 c.

(** The [first] table, reduced to the length it announces: 1 for
    ASCII, 2 to 4 for a leading byte, 0 for a byte that starts no
    rune. *)
Definition first_size (c : ascii) : nat :=
  let b := byte_val c in
  if (b <? 128)%N then 1%nat
  else if (b <? 194)%N then 0%nat
  else if (b <? 224)%N then 2%nat
  else if (b <? 240)%N then 3%nat
  else if (b <? 245)%N then 4%nat
  else 0%nat.

(** [acceptRanges]: what the second byte may be, by the first. *)
Definition second_ok (c0 c1 : ascii) : bool :=
  let b := byte_val c0 in
  if (b =? 224)%N then byte_in 160 191 c1
  else if (b =? 237)%N then byte_in 128 159 c1
  else if (b =? 240)%N then byte_in 144 191 c1
  else if (b =? 244)%N then byte_in 128 143 c1
  else cont c1.

(** The width [DecodeRuneInString] reports for the rune at the head of
    [s] when that rune is well encoded, and 0 when it answers
    [(RuneError, 1)] (or [(RuneError, 0)] on the empty string). *)
Definition rune_width (s : string) : nat :=
  match s with
  | EmptyString => 0%nat
  | String c0 t =>
      match first_size c0 with
      | 1%nat => 1%nat
      | 2%nat =>
          match t with
          | String c1 _ => if second_ok c0 c1 then 2%nat else 0%nat
          | _ => 0%nat
          end
      | 3%nat =>
          match t with
          | String c1 (String c2 _) =>
              if second_ok c0 c1 && cont c2 then 3%nat else 0%nat
          | _ => 0%nat
          end
      | 4%nat =>
          match t with
          | String c1 (String c2 (String c3 _)) =>
              if second_ok c0 c1 && cont c2 && cont c3 then 4%nat else 0%nat
          | _ => 0%nat
          end
      | _ => 0%nat
      end
  end.

(** One step of the loop [for i < len(s) { _, size := DecodeRuneInString(s[i:]); i += size }]:
    either the bytes of a well-encoded rune, or one byte that decodes
    to [RuneError] with width 1. *)
Inductive chunk : Type :=
| Valid (bytes : string)
| Invalid (c : ascii).

Fixpoint chunks (s : string) : list chunk :=
  match s with
  | EmptyString => []
  | String c0 t0 =>
      match rune_width s, t0 with
      | 1%nat, _ => Valid (str1 c0) :: chunks t0
      | 2%nat, String c1 t1 =>
          Valid (String c0 (str1 c1)) :: chunks t1
      | 3%nat, String c1 (String c2 t2) =>
          Valid (String c0 (String c1 (str1 c2))) :: chunks t2
      | 4%nat, String c1 (String c2 (String c3 t3)) =>
          Valid (String c0 (String c1 (String c2 (str1 c3)))) :: chunks t3
      | _, _ => Invalid c0 :: chunks t0
      end
  end.

Definition is_valid (ch : chunk) : bool :=
  match ch with Valid _ => true | Invalid _ => false end.

(** [utf8.RuneCountInString]: invalid bytes count as one rune each. *)
Definition RuneCountInString (s : string) : Z :=
  Z.of_nat (List.length (chunks s)).

(** [utf8.ValidString]. *)
Definition ValidString (s : string) : bool := forallb is_valid (chunks s).

(** [utf8.EncodeRune]: surrogates and values past U+10FFFF are written
    as U+FFFD. *)
Definition byte_of (n : N) : ascii := ascii_of_N n.

Definition RuneError : N := 65533%N.

Definition EncodeRune (r : N) : string :=
  let r := if ((55296 <=? r) && (r <=? 57343) || (1114111 <? r))%N
           then RuneError else r in
  if (r <? 128)%N then str1 (byte_of r)
  else if (r <? 2048)%N then
    String (byte_of (N.lor 192 (N.shiftr r 6)))
      (str1 (byte_of (N.lor 128 (N.land r 63))))
  else if (r <? 65536)%N then
    String (byte_of (N.lor 224 (N.shiftr r 12)))
      (String (byte_of (N.lor 128 (N.land (N.shiftr r 6) 63)))
         (str1 (byte_of (N.lor 128 (N.land r 63)))))
  else
    String (byte_of (N.lor 240 (N.shiftr r 18)))
      (String (byte_of (N.lor 128 (N.land (N.shiftr r 12) 63)))
         (String (byte_of (N.lor 128 (N.land (N.shiftr r 6) 63)))
            (str1 (byte_of (N.lor 128 (N.land r 63)))))).

End utf8.

(* ================================================================= *)
(** ** [strconv] *)

Module strconv.

(** [strconv.FormatInt(z, 10)] (what [encoding/json] writes for an
    [int64]). *)
Definition FormatInt (z : Z) : string := NilZero.string_of_int (Z.to_int z).

(** [strconv.ParseInt(s, 10, 64)]: an optional sign, at least one
    decimal digit, and a value in the 64-bit range. *)
Definition ParseInt (s : string) : option Z :=
  let '(neg, digits) :=
    match s with
    | String "+" r => (false, r)
    | String "-" r => (true, r)
    | _ => (false, s)
    end in
  match NilZero.uint_of_string digits with
  | None => None
  | Some d =>
      let n := Z.of_uint d in
      let z := if neg then - n else n in
      if int64_rangeb z then Some z else None
  end.

End strconv.

(* ================================================================= *)
(** ** [encoding/json]

    The encoder and decoder of the Go standard library, for what
    [bot.go] asks of them: [json.Marshal] of a struct of strings and
    [int64]s, and [json.NewDecoder(r).Decode(&v)], which reads the first
    JSON value of the stream, checks its syntax in full, and only then
    stores it into [v].  The library is the one of the Go releases the
    file was written for: control characters other than newline,
    carriage return and tab are written as [\u00XX], and no bound is put
    on the nesting of arrays and objects. *)

Module json.

Inductive value : Type :=
| Null
| Bool (b : bool)
| Number (lit : string)
| Str (s : string)
| Array (l : list value)
| Object (l : list (string * value)).

(** *** Encoding *)

Definition hex_digit (n : N) : ascii :=
  match String.get (N.to_nat n) "0123456789abcdef" with
  | Some c => c
  | None => "0"%char
  end.

(** [htmlSafeSet]: the ASCII bytes that [Marshal] copies as they are. *)
Definition htmlSafeSet (c : ascii) : bool :=
  byte_in 32 127 c
  && negb (Ascii.eqb c dquote) && negb (Ascii.eqb c backslash)
  && negb (Ascii.eqb c "<") && negb (Ascii.eqb c ">")
  && negb (Ascii.eqb c "&").

Definition escape_byte (c : ascii) : string :=
  String backslash
    (if Ascii.eqb c backslash || Ascii.eqb c dquote then str1 c
     else if Ascii.eqb c "010" then "n"
     else if Ascii.eqb c "013" then "r"
     else if Ascii.eqb c "009" then "t"
     else "u00" ++ String (hex_digit (N.shiftr (byte_val c) 4))
                     (str1 (hex_digit (N.land (byte_val c) 15)))).

(** U+2028 and U+2029 in UTF-8; the encoder compares the decoded rune
    with these two code points, whose only encodings these are. *)
Definition line_separator : string := String "226" (String "128" (str1 "168")).
Definition paragraph_separator : string := String "226" (String "128" (str1 "169")).

Definition encode_chunk (ch : utf8.chunk) : string :=
  match ch with
  | utf8.Invalid _ => String backslash "ufffd"
  | utf8.Valid bs =>
      match bs with
      | String c EmptyString => if htmlSafeSet c then bs else escape_byte c
      | _ =>
          if String.eqb bs line_separator then String backslash "u2028"
          else if String.eqb bs paragraph_separator then String backslash "u2029"
          else bs
      end
  end.

Definition encode_body (s : string) : string :=
  fold_right (fun ch acc => encode_chunk ch ++ acc) EmptyString (utf8.chunks s).

(** A Go string as a JSON string: invalid bytes become U+FFFD. *)
Definition encode_string (s : string) : string :=
  String dquote (encode_body s ++ str1 dquote).

Definition encode_int64 (z : Z) : string := strconv.FormatInt z.

(** *** Scanning *)

Definition is_space (c : ascii) : bool :=
  Ascii.eqb c " " || Ascii.eqb c "009" || Ascii.eqb c "013" || Ascii.eqb c "010".

Fixpoint skip_space (s : string) : string :=
  match s with
  | String c r => if is_space c then skip_space r else s
  | EmptyString => EmptyString
  end.

Definition hex_val (c : ascii) : option N :=
  if byte_in 48 57 c then Some (byte_val c - 48)%N
  else if byte_in 97 102 c then Some (byte_val c - 87)%N
  else if byte_in 65 70 c then Some (byte_val c - 55)%N
  else None.

(** [getu4] on the four characters after a backslash and [u]. *)
Definition getu4 (h1 h2 h3 h4 : ascii) : option N :=
  match hex_val h1, hex_val h2, hex_val h3, hex_val h4 with
  | Some a, Some b, Some c, Some d => Some (a * 4096 + b * 256 + c * 16 + d)%N
  | _, _, _, _ => None
  end.

(** [utf16.IsSurrogate] and [utf16.DecodeRune]. *)
Definition is_surrogate (r : N) : bool := ((55296 <=? r) && (r <? 57344))%N.

Definition utf16_DecodeRune (r1 r2 : N) : N :=
  if ((55296 <=? r1) && (r1 <? 56320) && (56320 <=? r2) && (r2 <? 57344))%N
  then (N.lor (N.shiftl (r1 - 55296) 10) (r2 - 56320) + 65536)%N
  else utf8.RuneError.

Definition unescape (e : ascii) : option ascii :=
  if Ascii.eqb e dquote || Ascii.eqb e backslash || Ascii.eqb e "/" then Some e
  else if Ascii.eqb e "b" then Some "008"%char
  else if Ascii.eqb e "f" then Some "012"%char
  else if Ascii.eqb e "n" then Some "010"%char
  else if Ascii.eqb e "r" then Some "013"%char
  else if Ascii.eqb e "t" then Some "009"%char
  else None.

Definition prepend (p : string) (r : option (string * string)) :
  option (string * string) :=
  match r with
  | Some (x, rest) => Some (p ++ x, rest)
  | None => None
  end.

Definition replacement : string := utf8.EncodeRune utf8.RuneError.

(** A string literal, from just after its opening quote: the decoded
    bytes and what follows the closing quote.  The scanner refuses
    control characters and bad escapes; [unquote] resolves the escapes
    and writes U+FFFD for every byte that is not UTF-8. *)
Fixpoint scan_string (s : string) : option (string * string) :=
  match s with
  | EmptyString => None
  | String c s1 =>
      if Ascii.eqb c dquote then Some (EmptyString, s1)
      else if Ascii.eqb c backslash then
        match s1 with
        | EmptyString => None
        | String e s2 =>
            if Ascii.eqb e "u" then
              match s2 with
              | String h1 (String h2 (String h3 (String h4 s6))) =>
                  match getu4 h1 h2 h3 h4 with
                  | None => None
                  | Some rr =>
                      if is_surrogate rr then
                        match s6 with
                        | String b (String u (String k1 (String k2
                            (String k3 (String k4 s12))))) =>
                            match (if Ascii.eqb b backslash && Ascii.eqb u "u"
                                   then getu4 k1 k2 k3 k4 else None) with
                            | Some rr1 =>
                                let dec := utf16_DecodeRune rr rr1 in
                                if (dec =? utf8.RuneError)%N
                                then prepend replacement (scan_string s6)
                                else prepend (utf8.EncodeRune dec) (scan_string s12)
                            | None => prepend replacement (scan_string s6)
                            end
                        | _ => prepend replacement (scan_string s6)
                        end
                      else prepend (utf8.EncodeRune rr) (scan_string s6)
                  end
              | _ => None
              end
            else
              match unescape e with
              | Some c' => prepend (str1 c') (scan_string s2)
              | None => None
              end
        end
      else if (byte_val c <? 32)%N then None
      else if (byte_val c <? 128)%N then prepend (str1 c) (scan_string s1)
      else
        match utf8.rune_width s, s1 with
        | 2%nat, String c1 s2 =>
            prepend (String c (str1 c1)) (scan_string s2)
        | 3%nat, String c1 (String c2 s3) =>
            prepend (String c (String c1 (str1 c2))) (scan_string s3)
        | 4%nat, String c1 (String c2 (String c3 s4)) =>
            prepend (String c (String c1 (String c2 (str1 c3)))) (scan_string s4)
        | _, _ => prepend replacement (scan_string s1)
        end
  end.

Definition is_digit (c : ascii) : bool := byte_in 48 57 c.

Fixpoint span_digits (s : string) : string * string :=
  match s with
  | String c r =>
      if is_digit c
      then let '(d, r') := span_digits r in (String c d, r')
      else (EmptyString, s)
  | EmptyString => (EmptyString, EmptyString)
  end.

Definition scan_exp (lit s : string) : option (string * string) :=
  match s with
  | String c r =>
      if Ascii.eqb c "e" || Ascii.eqb c "E" then
        let '(sg, r1) :=
          match r with
          | String "+" r1 => ("+", r1)
          | String "-" r1 => ("-", r1)
          | _ => (EmptyString, r)
          end in
        match span_digits r1 with
        | (EmptyString, _) => None
        | (d, r') => Some (lit ++ String c (sg ++ d), r')
        end
      else Some (lit, s)
  | EmptyString => Some (lit, EmptyString)
  end.

Definition scan_frac (lit s : string) : option (string * string) :=
  match s with
  | String "." r =>
      match span_digits r with
      | (EmptyString, _) => None
      | (d, r') => scan_exp (lit ++ String "." d) r'
      end
  | _ => scan_exp lit s
  end.

(** A number literal: an optional minus sign; a zero, or a digit from
    1 to 9 and more digits; an optional fraction (a dot and digits); an
    optional exponent (e or E, an optional sign, digits). *)
Definition scan_number (s : string) : option (string * string) :=
  let '(sign, s0) :=
    match s with
    | String "-" r => ("-", r)
    | _ => (EmptyString, s)
    end in
  match s0 with
  | String c r =>
      if Ascii.eqb c "0" then scan_frac (sign ++ "0") r
      else if byte_in 49 57 c then
        let '(d, r') := span_digits r in scan_frac (sign ++ String c d) r'
      else None
  | EmptyString => None
  end.

Definition scan_literal (s : string) : option (value * string) :=
  match s with
  | String "t" (String "r" (String "u" (String "e" r))) => Some (Bool true, r)
  | String "f" (String "a" (String "l" (String "s" (String "e" r)))) =>
      Some (Bool false, r)
  | String "n" (String "u" (String "l" (String "l" r))) => Some (Null, r)
  | _ =>
      match scan_number s with
      | Some (lit, r) => Some (Number lit, r)
      | None => None
      end
  end.

(** One JSON value and the text after it.  Fuel is spent on every call;
    [parse_fuel_enough] shows that the length of the text is enough of
    it. *)
Fixpoint parse (fuel : nat) (s : string) : option (value * string) :=
  match fuel with
  | O => None
  | S f =>
      match skip_space s with
      | EmptyString => None
      | String c r =>
          if Ascii.eqb c "{" then
            match skip_space r with
            | EmptyString => None
            | String c' r' =>
                if Ascii.eqb c' "}" then Some (Object [], r')
                else
                  match members f (String c' r') with
                  | Some (kvs, r'') => Some (Object kvs, r'')
                  | None => None
                  end
            end
          else if Ascii.eqb c "[" then
            match skip_space r with
            | EmptyString => None
            | String c' r' =>
                if Ascii.eqb c' "]" then Some (Array [], r')
                else
                  match elements f (String c' r') with
                  | Some (vs, r'') => Some (Array vs, r'')
                  | None => None
                  end
            end
          else if Ascii.eqb c dquote then
            match scan_string r with
            | Some (x, r') => Some (Str x, r')
            | None => None
            end
          else scan_literal (String c r)
      end
  end

with members (fuel : nat) (s : string) : option (list (string * value) * string) :=
  match fuel with
  | O => None
  | S f =>
      match s with
      | EmptyString => None
      | String c r =>
          if Ascii.eqb c dquote then
            match scan_string r with
            | None => None
            | Some (k, r1) =>
                match skip_space r1 with
                | EmptyString => None
                | String c2 r2 =>
                    if Ascii.eqb c2 ":" then
                      match parse f r2 with
                      | None => None
                      | Some (v, r3) =>
                          match skip_space r3 with
                          | EmptyString => None
                          | String c4 r4 =>
                              if Ascii.eqb c4 "," then
                                match members f (skip_space r4) with
                                | Some (kvs, r5) => Some ((k, v) :: kvs, r5)
                                | None => None
                                end
                              else if Ascii.eqb c4 "}" then Some ([(k, v)], r4)
                              else None
                          end
                      end
                    else None
                end
            end
          else None
      end
  end

with elements (fuel : nat) (s : string) : option (list value * string) :=
  match fuel with
  | O => None
  | S f =>
      match parse f s with
      | None => None
      | Some (v, r1) =>
          match skip_space r1 with
          | EmptyString => None
          | String c2 r2 =>
              if Ascii.eqb c2 "," then
                match elements f r2 with
                | Some (vs, r3) => Some (v :: vs, r3)
                | None => None
                end
              else if Ascii.eqb c2 "]" then Some ([v], r2)
              else None
          end
      end
  end.

(** [Decoder.readValue]: the first value of the stream; what follows it
    stays in the decoder's buffer. *)
Definition readValue (data : string) : option value :=
  match parse (S (String.length data)) data with
  | Some (v, _) => Some v
  | None => None
  end.

(** *** Storing *)

Inductive error : Type :=
| SyntaxError            (* also an unexpected end of the input *)
| UnmarshalTypeError.

(** [saveError] keeps the first error. *)
Definition saveError (old new : option error) : option error :=
  match old with
  | Some e => Some e
  | None => new
  end.

Definition upper (c : ascii) : ascii :=
  if byte_in 97 122 c then ascii_of_N (byte_val c - 32) else c.

(** The case folding under which a key names a field.  U+017F and
    U+212A fold to [S] and [K]; every other rune outside ASCII folds to
    a rune outside ASCII and is kept here as it is, which does not
    change whether the result equals the folded name of a field, all
    ASCII. *)
Fixpoint foldName (s : string) : string :=
  match s with
  | EmptyString => EmptyString
  | String c r =>
      match s with
      | String "197" (String "191" r2) => String "S" (foldName r2)
      | String "226" (String "132" (String "170" r3)) => String "K" (foldName r3)
      | _ => String (upper c) (foldName r)
      end
  end.

(** The field a key names: an exact match first, else the first match
    under case folding. *)
Definition lookup_field {F : Type} (fields : list (string * F)) (key : string) :
  option F :=
  match find (fun f => String.eqb (fst f) key) fields with
  | Some f => Some (snd f)
  | None =>
      match find (fun f => String.eqb (foldName (fst f)) (foldName key)) fields with
      | Some f => Some (snd f)
      | None => None
      end
  end.

(** Storing a value into a [string]: null is ignored, any other kind
    is an [UnmarshalTypeError] and leaves the field as it was. *)
Definition store_string (cur : string) (v : value) : string * option error :=
  match v with
  | Str s => (s, None)
  | Null => (cur, None)
  | _ => (cur, Some UnmarshalTypeError)
  end.

(** Storing a value into an [int64]. *)
Definition store_int64 (cur : Z) (v : value) : Z * option error :=
  match v with
  | Number lit =>
      match strconv.ParseInt lit with
      | Some z => (z, None)
      | None => (cur, Some UnmarshalTypeError)
      end
  | Null => (cur, None)
  | _ => (cur, Some UnmarshalTypeError)
  end.

(** Storing a value into a [*string]: null sets nil; otherwise
    [indirect] allocates the string first. *)
Definition store_string_ptr (cur : option string) (v : value) :
  option string * option error :=
  match v with
  | Null => (None, None)
  | _ =>
      let '(s, e) := store_string (match cur with Some s => s | None => EmptyString end) v in
      (Some s, e)
  end.

(** [Decoder.Decode(&target)] for a target whose kind has the storing
    function [store]: on a syntax error the target is not touched. *)
Definition Decode {T : Type} (store : T -> value -> T * option error)
  (data : string) (target : T) : T * option error :=
  match readValue data with
  | None => (target, Some SyntaxError)
  | Some v => store target v
  end.

End json.

(* ================================================================= *)
(** ** Declarations of the [model] package outside [bot.go] *)

(** Modelled from the spec: [AppError] and [NewAppError] are declared
    outside [bot.go].  The error-reporting contract accepts an operation
    name, a message key, a trace context map, a debug detail string and
    an HTTP status code, and a failure carries them. *)
Record AppError : Type := mkAppError {
  Where : string;
  Id : string;
  Params : list (string * string);
  DetailedError : string;
  StatusCode : Z
}.

Definition NewAppError (where_ id : string) (params : list (string * string))
  (details : string) (status : Z) : AppError :=
  mkAppError where_ id params details status.

(** [net/http]. *)
Definition StatusBadRequest : Z := 400.

(** Modelled from the spec: the [User] struct is declared outside
    [bot.go].  Of the human-account record the projection fills the
    identifier, the account name, the account email and the first-name
    field; every other field keeps its zero value and is left out. *)
Record User : Type := mkUser {
  User_Id : string;
  User_Username : string;
  User_Email : string;
  User_FirstName : string
}.

(** What [bot.go] passes to the variadic [Etag(parts ...interface{})],
    declared outside [bot.go] and a parameter of what follows. *)
Inductive etag_part : Type :=
| PartString (s : string)
| PartInt64 (z : Z)
| PartInt (z : Z).

(* ================================================================= *)
(** ** [bot.go]: the data model *)

Record Bot : Type := mkBot {
  UserId : string;
  Username : string;
  DisplayName : string;
  Description : string;
  CreatorId : string;
  CreateAt : Z;
  UpdateAt : Z;
  DeleteAt : Z
}.

(** The zero value of [Bot]. *)
Definition Bot_zero : Bot := mkBot "" "" "" "" "" 0 0 0.

(** The typing of the three [int64] fields. *)
Definition Bot_wf (b : Bot) : Prop :=
  int64_range (CreateAt b) /\ int64_range (UpdateAt b) /\ int64_range (DeleteAt b).

Record BotPatch : Type := mkBotPatch {
  Patch_Username : option string;
  Patch_DisplayName : option string;
  Patch_Description : option string
}.

Definition BotPatch_zero : BotPatch := mkBotPatch None None None.

(** [type BotList []*Bot]: an element may be nil. *)
Definition BotList : Type := list (option Bot).

(* ================================================================= *)
(** ** [bot.go]: validation *)

Definition Bot_Trace (b : Bot) : list (string * string) :=
  [("user_id", UserId b)].

Definition Bot_Clone (b : Bot) : Bot := b.

Section Validation.

(** The username rule and the rune bound of the first name are shared
    with the user model and declared outside [bot.go]. *)
Variable IsValidUsername : string -> bool.
Variable USER_FIRST_NAME_MAX_RUNES : Z.

Definition BOT_DISPLAY_NAME_MAX_RUNES : Z := USER_FIRST_NAME_MAX_RUNES.

Definition Bot_IsValid (b : Bot) : option AppError :=
  if negb (len (UserId b) =? 26) then
    Some (NewAppError "Bot.IsValid" "model.bot.is_valid.user_id.app_error"
            (Bot_Trace b) "" StatusBadRequest)
  else if negb (IsValidUsername (Username b)) then
    Some (NewAppError "Bot.IsValid" "model.bot.is_valid.username.app_error"
            (Bot_Trace b) "" StatusBadRequest)
  else if utf8.RuneCountInString (DisplayName b) >? BOT_DISPLAY_NAME_MAX_RUNES then
    Some (NewAppError "Bot.IsValid" "model.bot.is_valid.user_id.app_error"
            (Bot_Trace b) "" StatusBadRequest)
  else if utf8.RuneCountInString (Description b) >? 1024 then
    Some (NewAppError "Bot.IsValid" "model.bot.is_valid.description.app_error"
            (Bot_Trace b) "" StatusBadRequest)
  else if negb (len (CreatorId b) =? 26) then
    Some (NewAppError "Bot.IsValid" "model.bot.is_valid.creator_id.app_error"
            (Bot_Trace b) "" StatusBadRequest)
  else if CreateAt b =? 0 then
    Some (NewAppError "Bot.IsValid" "model.bot.is_valid.create_at.app_error"
            (Bot_Trace b) "" StatusBadRequest)
  else if UpdateAt b =? 0 then
    Some (NewAppError "Bot.IsValid" "model.bot.is_valid.update_at.app_error"
            (Bot_Trace b) "" StatusBadRequest)
  else None.

(** *** The rules as the specification lists them *)

Inductive rule : Type :=
| RuleUserId
| RuleUsername
| RuleDisplayName
| RuleDescription
| RuleCreatorId
| RuleCreateAt
| RuleUpdateAt.

Definition rules_in_order : list rule :=
  [RuleUserId; RuleUsername; RuleDisplayName; RuleDescription;
   RuleCreatorId; RuleCreateAt; RuleUpdateAt].

Definition holds (b : Bot) (r : rule) : bool :=
  match r with
  | RuleUserId => len (UserId b) =? 26
  | RuleUsername => IsValidUsername (Username b)
  | RuleDisplayName =>
      utf8.RuneCountInString (DisplayName b) <=? BOT_DISPLAY_NAME_MAX_RUNES
  | RuleDescription => utf8.RuneCountInString (Description b) <=? 1024
  | RuleCreatorId => len (CreatorId b) =? 26
  | RuleCreateAt => negb (CreateAt b =? 0)
  | RuleUpdateAt => negb (UpdateAt b =? 0)
  end.

(** The place of a rule in the order of the checks. *)
Definition rule_index (r : rule) : nat :=
  match r with
  | RuleUserId => 0
  | RuleUsername => 1
  | RuleDisplayName => 2
  | RuleDescription => 3
  | RuleCreatorId => 4
  | RuleCreateAt => 5
  | RuleUpdateAt => 6
  end.

Definition first_violated (b : Bot) : option rule :=
  find (fun r => negb (holds b r)) rules_in_order.

(** The message key written at the return of each check. *)
Definition returned_key (r : rule) : string :=
  match r with
  | RuleUserId => "model.bot.is_valid.user_id.app_error"
  | RuleUsername => "model.bot.is_valid.username.app_error"
  | RuleDisplayName => "model.bot.is_valid.user_id.app_error"
  | RuleDescription => "model.bot.is_valid.description.app_error"
  | RuleCreatorId => "model.bot.is_valid.creator_id.app_error"
  | RuleCreateAt => "model.bot.is_valid.create_at.app_error"
  | RuleUpdateAt => "model.bot.is_valid.update_at.app_error"
  end.

Definition failure_of (b : Bot) (r : rule) : AppError :=
  NewAppError "Bot.IsValid" (returned_key r) (Bot_Trace b) "" StatusBadRequest.

End Validation.

(** The key that names each rule after the field it checks, in the
    scheme of the six keys that do. *)
Definition own_key (r : rule) : string :=
  "model.bot.is_valid."
  ++ match r with
     | RuleUserId => "user_id"
     | RuleUsername => "username"
     | RuleDisplayName => "display_name"
     | RuleDescription => "description"
     | RuleCreatorId => "creator_id"
     | RuleCreateAt => "create_at"
     | RuleUpdateAt => "update_at"
     end
  ++ ".app_error".

(* ================================================================= *)
(** ** [bot.go]: life cycle and cache tokens *)

(** [GetMillis] is the clock of the package; its reading is [now]. *)
Definition Bot_PreSave (now : Z) (b : Bot) : Bot :=
  mkBot (UserId b) (Username b) (DisplayName b) (Description b) (CreatorId b)
    now now 0.

Definition Bot_PreUpdate (now : Z) (b : Bot) : Bot :=
  mkBot (UserId b) (Username b) (DisplayName b) (Description b) (CreatorId b)
    (CreateAt b) now (DeleteAt b).

(** The loop of [BotList.Etag] from the state [(id, t)]; reading
    [v.UpdateAt] through a nil element panics, which is [None]. *)
Fixpoint BotList_Etag_loop (l : BotList) (id : string) (t : Z) : option (string * Z) :=
  match l with
  | [] => Some (id, t)
  | None :: _ => None
  | Some v :: rest =>
      if UpdateAt v >? t
      then BotList_Etag_loop rest (UserId v) (UpdateAt v)
      else BotList_Etag_loop rest id t
  end.

(** The arguments [BotList.Etag] hands to [Etag]. *)
Definition BotList_Etag_parts (l : BotList) : option (list etag_part) :=
  let id := "0" in
  let t := 0 in
  let delta := 0 in
  match BotList_Etag_loop l id t with
  | Some (id, t) =>
      Some [PartString id; PartInt64 t; PartInt64 delta;
            PartInt (Z.of_nat (List.length l))]
  | None => None
  end.

Section CacheToken.

Variable Etag : list etag_part -> string.

Definition Bot_Etag (b : Bot) : string :=
  Etag [PartString (UserId b); PartInt64 (UpdateAt b)].

Definition BotList_Etag (l : BotList) : option string :=
  option_map Etag (BotList_Etag_parts l).

End CacheToken.

(* ================================================================= *)
(** ** [bot.go]: patching and projection *)

Definition Bot_Patch (b : Bot) (patch : BotPatch) : Bot :=
  let b :=
    match Patch_Username patch with
    | Some v => mkBot (UserId b) v (DisplayName b) (Description b) (CreatorId b)
                  (CreateAt b) (UpdateAt b) (DeleteAt b)
    | None => b
    end in
  let b :=
    match Patch_DisplayName patch with
    | Some v => mkBot (UserId b) (Username b) v (Description b) (CreatorId b)
                  (CreateAt b) (UpdateAt b) (DeleteAt b)
    | None => b
    end in
  match Patch_Description patch with
  | Some v => mkBot (UserId b) (Username b) (DisplayName b) v (CreatorId b)
                (CreateAt b) (UpdateAt b) (DeleteAt b)
  | None => b
  end.

Section Projection.

(** [strings.ToLower]. *)
Variable ToLower : string -> string.

Definition UserFromBotModel (b : Bot) : User :=
  mkUser (UserId b) (Username b) (ToLower (Username b) ++ "@localhost")
    (DisplayName b).

End Projection.

(* ================================================================= *)
(** ** [bot.go]: the wire codec *)

(** The fields of [Bot] under their [json] tags, in declaration order. *)
Inductive bot_field : Type :=
| F_user_id | F_username | F_display_name | F_description | F_creator_id
| F_create_at | F_update_at | F_delete_at.

Definition bot_fields : list (string * bot_field) :=
  [("user_id", F_user_id); ("username", F_username);
   ("display_name", F_display_name); ("description", F_description);
   ("creator_id", F_creator_id); ("create_at", F_create_at);
   ("update_at", F_update_at); ("delete_at", F_delete_at)].

Definition json_key (name : string) : string := json.encode_string name ++ ":".

(** [json.Marshal(b)]: no field of [Bot] can fail to encode. *)
Definition Bot_ToJson (b : Bot) : string :=
  "{" ++ json_key "user_id" ++ json.encode_string (UserId b)
  ++ "," ++ json_key "username" ++ json.encode_string (Username b)
  ++ "," ++ json_key "display_name" ++ json.encode_string (DisplayName b)
  ++ "," ++ json_key "description" ++ json.encode_string (Description b)
  ++ "," ++ json_key "creator_id" ++ json.encode_string (CreatorId b)
  ++ "," ++ json_key "create_at" ++ json.encode_int64 (CreateAt b)
  ++ "," ++ json_key "update_at" ++ json.encode_int64 (UpdateAt b)
  ++ "," ++ json_key "delete_at" ++ json.encode_int64 (DeleteAt b)
  ++ "}".

Definition store_bot_field (b : Bot) (f : bot_field) (v : json.value) :
  Bot * option json.error :=
  match f with
  | F_user_id =>
      let '(x, e) := json.store_string (UserId b) v in
      (mkBot x (Username b) (DisplayName b) (Description b) (CreatorId b)
         (CreateAt b) (UpdateAt b) (DeleteAt b), e)
  | F_username =>
      let '(x, e) := json.store_string (Username b) v in
      (mkBot (UserId b) x (DisplayName b) (Description b) (CreatorId b)
         (CreateAt b) (UpdateAt b) (DeleteAt b), e)
  | F_display_name =>
      let '(x, e) := json.store_string (DisplayName b) v in
      (mkBot (UserId b) (Username b) x (Description b) (CreatorId b)
         (CreateAt b) (UpdateAt b) (DeleteAt b), e)
  | F_description =>
      let '(x, e) := json.store_string (Description b) v in
      (mkBot (UserId b) (Username b) (DisplayName b) x (CreatorId b)
         (CreateAt b) (UpdateAt b) (DeleteAt b), e)
  | F_creator_id =>
      let '(x, e) := json.store_string (CreatorId b) v in
      (mkBot (UserId b) (Username b) (DisplayName b) (Description b) x
         (CreateAt b) (UpdateAt b) (DeleteAt b), e)
  | F_create_at =>
      let '(x, e) := json.store_int64 (CreateAt b) v in
      (mkBot (UserId b) (Username b) (DisplayName b) (Description b) (CreatorId b)
         x (UpdateAt b) (DeleteAt b), e)
  | F_update_at =>
      let '(x, e) := json.store_int64 (UpdateAt b) v in
      (mkBot (UserId b) (Username b) (DisplayName b) (Description b) (CreatorId b)
         (CreateAt b) x (DeleteAt b), e)
  | F_delete_at =>
      let '(x, e) := json.store_int64 (DeleteAt b) v in
      (mkBot (UserId b) (Username b) (DisplayName b) (Description b) (CreatorId b)
         (CreateAt b) (UpdateAt b) x, e)
  end.

(** Storing the members of an object into a struct, in their order: a
    key that names no field is skipped, a value of the wrong kind is
    recorded and skipped. *)
Definition store_members {T F : Type} (fields : list (string * F))
  (store : T -> F -> json.value -> T * option json.error)
  (kvs : list (string * json.value)) (t : T) : T * option json.error :=
  fold_left
    (fun (acc : T * option json.error) (kv : string * json.value) =>
       match json.lookup_field fields (fst kv) with
       | None => acc
       | Some f =>
           let '(t', e) := store (fst acc) f (snd kv) in
           (t', json.saveError (snd acc) e)
       end)
    kvs (t, None).

(** Storing into a [Bot] struct. *)
Definition store_Bot (b : Bot) (v : json.value) : Bot * option json.error :=
  match v with
  | json.Object kvs => store_members bot_fields store_bot_field kvs b
  | json.Null => (b, None)
  | _ => (b, Some json.UnmarshalTypeError)
  end.

(** Storing into a [*Bot]: null sets nil; for any other value the
    pointer is allocated when nil, before the kind is looked at. *)
Definition store_Bot_ptr (p : option Bot) (v : json.value) :
  option Bot * option json.error :=
  match v with
  | json.Null => (None, None)
  | _ =>
      let '(b, e) := store_Bot (match p with Some b => b | None => Bot_zero end) v in
      (Some b, e)
  end.

Fixpoint store_elements (cur : BotList) (vs : list json.value) :
  BotList * option json.error :=
  match vs with
  | [] => ([], None)
  | v :: vs' =>
      let '(p, e) := store_Bot_ptr (hd None cur) v in
      let '(ps, e') := store_elements (tl cur) vs' in
      (p :: ps, json.saveError e e')
  end.

(** Storing into a [BotList] (a slice): null sets nil, the empty slice
    of this model. *)
Definition store_BotList (l : BotList) (v : json.value) :
  BotList * option json.error :=
  match v with
  | json.Null => ([], None)
  | json.Array vs => store_elements l vs
  | _ => (l, Some json.UnmarshalTypeError)
  end.

Inductive patch_field : Type :=
| P_username | P_display_name | P_description.

Definition patch_fields : list (string * patch_field) :=
  [("username", P_username); ("display_name", P_display_name);
   ("description", P_description)].

Definition store_patch_field (p : BotPatch) (f : patch_field) (v : json.value) :
  BotPatch * option json.error :=
  match f with
  | P_username =>
      let '(x, e) := json.store_string_ptr (Patch_Username p) v in
      (mkBotPatch x (Patch_DisplayName p) (Patch_Description p), e)
  | P_display_name =>
      let '(x, e) := json.store_string_ptr (Patch_DisplayName p) v in
      (mkBotPatch (Patch_Username p) x (Patch_Description p), e)
  | P_description =>
      let '(x, e) := json.store_string_ptr (Patch_Description p) v in
      (mkBotPatch (Patch_Username p) (Patch_DisplayName p) x, e)
  end.

(** Storing into a [BotPatch] struct. *)
Definition store_BotPatch (p : BotPatch) (v : json.value) :
  BotPatch * option json.error :=
  match v with
  | json.Object kvs => store_members patch_fields store_patch_field kvs p
  | json.Null => (p, None)
  | _ => (p, Some json.UnmarshalTypeError)
  end.

(** The reader [data] is the bytes it delivers. *)
Definition BotFromJson (data : string) : option Bot :=
  let bot : option Bot := None in
  let '(bot, _) := json.Decode store_Bot_ptr data bot in
  bot.

Definition BotPatchFromJson (data : string) : option BotPatch :=
  let botPatch := BotPatch_zero in
  let '(botPatch, err) := json.Decode store_BotPatch data botPatch in
  match err with
  | Some _ => None
  | None => Some botPatch
  end.

Definition BotListFromJson (data : string) : BotList :=
  let bots : BotList := [] in
  let '(bots, _) := json.Decode store_BotList data bots in
  bots.

(* ================================================================= *)
(** ** Stand-ins and sample values for concrete evaluations *)

(** A username rule to run the validator with: one or more lowercase
    ASCII letters or digits. *)
Fixpoint all_lower_or_digit (s : string) : bool :=
  match s with
  | EmptyString => true
  | String c r => (byte_in 97 122 c || byte_in 48 57 c) && all_lower_or_digit r
  end.

Definition example_IsValidUsername (s : string) : bool :=
  negb (String.eqb s EmptyString) && all_lower_or_digit s.

(** A token function to run the cache tokens with: the parts, each after
    a dot. *)
Definition example_Etag (parts : list etag_part) : string :=
  fold_right
    (fun p acc =>
       "." ++ match p with
              | PartString s => s
              | PartInt64 z => strconv.FormatInt z
              | PartInt z => strconv.FormatInt z
              end ++ acc)
    EmptyString parts.

(** Lowercasing of the ASCII letters, to run the projection with. *)
Fixpoint example_ToLower (s : string) : string :=
  match s with
  | EmptyString => EmptyString
  | String c r =>
      String (if byte_in 65 90 c then ascii_of_N (byte_val c + 32) else c)
        (example_ToLower r)
  end.

Fixpoint repeat_string (n : nat) (s : string) : string :=
  match n with
  | O => EmptyString
  | S m => s ++ repeat_string m s
  end.

Definition id26 : string := "abcdefghijklmnopqrstuvwxyz".

(** A bot that passes every check. *)
Definition example_bot : Bot :=
  mkBot id26 "testbot" "Test Bot" "a bot" id26 1000 2000 0.

(** [example_bot] with a display name of 65 runes. *)
Definition long_name_bot : Bot :=
  mkBot id26 "testbot" (repeat_string 65 "n") "a bot" id26 1000 2000 0.

(** [example_bot] with an identity of 25 bytes. *)
Definition short_id_bot : Bot :=
  mkBot "abcdefghijklmnopqrstuvwxy" "testbot" "Test Bot" "a bot" id26 1000 2000 0.

(** [example_bot] with the description made of the single byte 255,
    which is not UTF-8. *)
Definition raw_byte_bot : Bot :=
  mkBot id26 "testbot" "Test Bot" (str1 "255") id26 1000 2000 0.

(** The collection of the specification's example: timestamps 100, 300,
    300 under the identities a, b, c. *)
Definition bot_a : Bot := mkBot "a" "" "" "" "" 0 100 0.
Definition bot_b : Bot := mkBot "b" "" "" "" "" 0 300 0.
Definition bot_c : Bot := mkBot "c" "" "" "" "" 0 300 0.

Definition abc_list : BotList := map Some [bot_a; bot_b; bot_c].

Definition example_patch : BotPatch := mkBotPatch (Some "renamed") None (Some "").

(** JSON texts are written with an apostrophe for the double quote. *)
Fixpoint json_text (s : string) : string :=
  match s with
  | EmptyString => EmptyString
  | String c r => String (if Ascii.eqb c "'" then dquote else c) (json_text r)
  end.

(* ================================================================= *)
(** ** Notions used by the properties of the codec *)

(** A decimal numeral that does not start with a zero. *)
Definition nonzero_head (d : Decimal.uint) : Prop :=
  match d with
  | Decimal.Nil | Decimal.D0 _ => False
  | _ => True
  end.

(** What may follow a number inside an object. *)
Definition delimiter (c : ascii) : Prop := c = ","%char \/ c = "}"%char.

(** The strings of a bot are UTF-8. *)
Definition Bot_utf8 (b : Bot) : Prop :=
  utf8.ValidString (UserId b) = true
  /\ utf8.ValidString (Username b) = true
  /\ utf8.ValidString (DisplayName b) = true
  /\ utf8.ValidString (Description b) = true
  /\ utf8.ValidString (CreatorId b) = true.

Definition Bot_members (b : Bot) : list (string * json.value) :=
  [("user_id", json.Str (UserId b)); ("username", json.Str (Username b));
   ("display_name", json.Str (DisplayName b));
   ("description", json.Str (Description b));
   ("creator_id", json.Str (CreatorId b));
   ("create_at", json.Number (strconv.FormatInt (CreateAt b)));
   ("update_at", json.Number (strconv.FormatInt (UpdateAt b)));
   ("delete_at", json.Number (strconv.FormatInt (DeleteAt b)))].


(* ================================================================= *)
(** ** [bot.go]: the encoders of patches and collections *)

(** [json.Marshal] of a [*string]: nil is written [null]. *)
Definition encode_string_ptr (p : option string) : string :=
  match p with
  | Some s => json.encode_string s
  | None => "null"
  end.

(** [json.Marshal(b)] for a [*BotPatch]: the text and the error, which
    no field of the struct can raise. *)
Definition Marshal_BotPatch (b : BotPatch) : string * option json.error :=
  ("{" ++ json_key "username" ++ encode_string_ptr (Patch_Username b)
   ++ "," ++ json_key "display_name" ++ encode_string_ptr (Patch_DisplayName b)
   ++ "," ++ json_key "description" ++ encode_string_ptr (Patch_Description b)
   ++ "}", None).

(** [BotPatch.ToJson]; [None] is the nil it returns on an error. *)
Definition BotPatch_ToJson (b : BotPatch) : option string :=
  let '(data, err) := Marshal_BotPatch b in
  match err with
  | Some _ => None
  | None => Some data
  end.

(** [json.Marshal] of a [*Bot]. *)
Definition encode_Bot_ptr (p : option Bot) : string :=
  match p with
  | Some b => Bot_ToJson b
  | None => "null"
  end.

Fixpoint encode_elements (l : BotList) : string :=
  match l with
  | [] => EmptyString
  | x :: rest =>
      match rest with
      | [] => encode_Bot_ptr x
      | _ => encode_Bot_ptr x ++ "," ++ encode_elements rest
      end
  end.

(** [BotList.ToJson].  [Marshal] writes [null] for a nil slice and an
    empty array for an empty one; a list of this model does not record
    which of the two it is, so the encoder is told. *)
Definition BotList_ToJson (is_nil : bool) (l : BotList) : string :=
  match l with
  | [] => if is_nil then "null" else "[]"
  | _ => "[" ++ encode_elements l ++ "]"
  end.

(* ================================================================= *)
(** ** Notions used by the further properties *)

(** What [Marshal] makes of a string: every byte that is not UTF-8
    replaced by U+FFFD. *)
Definition coerce_utf8 (s : string) : string :=
  fold_right
    (fun ch acc =>
       match ch with
       | utf8.Valid bs => bs
       | utf8.Invalid _ => json.replacement
       end ++ acc)
    EmptyString (utf8.chunks s).

Definition Bot_coerce (b : Bot) : Bot :=
  mkBot (coerce_utf8 (UserId b)) (coerce_utf8 (Username b))
    (coerce_utf8 (DisplayName b)) (coerce_utf8 (Description b))
    (coerce_utf8 (CreatorId b)) (CreateAt b) (UpdateAt b) (DeleteAt b).

Definition BotPatch_coerce (p : BotPatch) : BotPatch :=
  mkBotPatch (option_map coerce_utf8 (Patch_Username p))
    (option_map coerce_utf8 (Patch_DisplayName p))
    (option_map coerce_utf8 (Patch_Description p)).

(** The patch that does what [p] and then [q] do. *)
Definition BotPatch_then (p q : BotPatch) : BotPatch :=
  let pick (x y : option string) := match y with Some _ => y | None => x end in
  mkBotPatch (pick (Patch_Username p) (Patch_Username q))
    (pick (Patch_DisplayName p) (Patch_DisplayName q))
    (pick (Patch_Description p) (Patch_Description q)).

(** The values a patch provides pass the rules of their fields. *)
Definition patch_passes (V : string -> bool) (MAX : Z) (p : BotPatch) : bool :=
  match Patch_Username p with Some u => V u | None => true end
  && match Patch_DisplayName p with
     | Some n => utf8.RuneCountInString n <=? MAX
     | None => true
     end
  && match Patch_Description p with
     | Some d => utf8.RuneCountInString d <=? 1024
     | None => true
     end.

(** A patch with a username the sample rule refuses. *)
Definition bad_name_patch : BotPatch := mkBotPatch (Some "Not Valid") None None.

Definition example_list : BotList := [Some example_bot; None; Some raw_byte_bot].

(** The value a [*string] is written as, after coercion. *)
Definition ptr_value (p : option string) : json.value :=
  match p with
  | Some s => json.Str (coerce_utf8 s)
  | None => json.Null
  end.

(** The value an element of a collection is written as. *)
Definition elem_value (x : option Bot) : json.value :=
  match x with
  | Some b => json.Object (Bot_members (Bot_coerce b))
  | None => json.Null
  end.

(** The typing of the integers of an element. *)
Definition elem_wf (x : option Bot) : Prop :=
  match x with
  | Some b => Bot_wf b
  | None => True
  end.

(** [P] holds of every number below [n]. *)
Definition all_below (P : N -> bool) (n : N) : bool :=
  N.peano_rect (fun _ => bool) true (fun k acc => acc && P k) n.

(** A value that is no string, or a UTF-8 one. *)
Definition str_utf8 (v : json.value) : Prop :=
  match v with
  | json.Str s => utf8.ValidString s = true
  | _ => True
  end.

(** The same, one level into an object. *)
Definition value_utf8 (v : json.value) : Prop :=
  match v with
  | json.Str s => utf8.ValidString s = true
  | json.Object kvs => Forall (fun kv => str_utf8 (snd kv)) kvs
  | _ => True
  end.

(** The strings a patch provides are UTF-8. *)
Definition BotPatch_utf8 (p : BotPatch) : Prop :=
  Forall (fun o => match o with
                   | Some s => utf8.ValidString s = true
                   | None => True
                   end)
    [Patch_Username p; Patch_DisplayName p; Patch_Description p].

(* ================================================================= *)
(** * Properties *)

(* ================================================================= *)
(** ** Validation *)

Section ValidationFacts.

Variable IsValidUsername : string -> bool.
Variable MAX : Z.

Lemma gtb_negb_leb (x y : Z) : (x >? y) = negb (x <=? y).
Proof. rewrite Z.gtb_ltb, Z.leb_antisym, negb_involutive. reflexivity. Qed.

(** The chain of checks is the search for the first rule that fails. *)
Lemma Bot_IsValid_find (b : Bot) :
  Bot_IsValid IsValidUsername MAX b
  = option_map (failure_of b) (first_violated IsValidUsername MAX b).
Proof.
  unfold Bot_IsValid, first_violated, rules_in_order, find, holds,
    BOT_DISPLAY_NAME_MAX_RUNES, failure_of.
  rewrite !gtb_negb_leb, !negb_involutive.
  destruct (len (UserId b) =? 26); simpl; [|reflexivity].
  destruct (IsValidUsername (Username b)); simpl; [|reflexivity].
  destruct (utf8.RuneCountInString (DisplayName b) <=? MAX); simpl; [|reflexivity].
  destruct (utf8.RuneCountInString (Description b) <=? 1024); simpl; [|reflexivity].
  destruct (len (CreatorId b) =? 26); simpl; [|reflexivity].
  destruct (CreateAt b =? 0); simpl; [reflexivity|].
  destruct (UpdateAt b =? 0); simpl; reflexivity.
Qed.

Lemma first_violated_none (b : Bot) :
  first_violated IsValidUsername MAX b = None
  <-> forall r, holds IsValidUsername MAX b r = true.
Proof.
  unfold first_violated. split.
  - intros H r.
    assert (In r rules_in_order) as Hin by (destruct r; simpl; tauto).
    apply (find_none _ _ H) in Hin.
    now apply negb_false_iff in Hin.
  - intros H.
    destruct (find _ _) as [r|] eqn:E; [|reflexivity].
    apply find_some in E. destruct E as [_ E].
    rewrite H in E. discriminate.
Qed.

Lemma first_violated_some (b : Bot) (r : rule) :
  first_violated IsValidUsername MAX b = Some r ->
  holds IsValidUsername MAX b r = false.
Proof.
  unfold first_violated. intros E. apply find_some in E.
  destruct E as [_ E]. now apply negb_true_iff in E.
Qed.

End ValidationFacts.

Lemma first_violated_first (V : string -> bool) (MAX : Z) (b : Bot) (r r' : rule) :
  first_violated V MAX b = Some r ->
  (rule_index r' < rule_index r)%nat ->
  holds V MAX b r' = true.
Proof.
  unfold first_violated, rules_in_order.
  remember (holds V MAX b) as h eqn:Hh. clear Hh.
  cbn [find]. intros E Hlt.
  repeat match type of E with
         | (if negb (h ?x) then _ else _) = _ =>
             destruct (h x) eqn:?; cbn [negb] in E
         end;
    try discriminate; injection E as <-;
    destruct r'; cbn [rule_index] in Hlt; try lia; assumption.
Qed.

(** Each check other than the display-name one returns the key that
    names its own rule. *)
Lemma returned_key_own (r : rule) :
  r <> RuleDisplayName -> returned_key r = own_key r.
Proof. destruct r; intros H; try reflexivity. now destruct H. Qed.

(** C3.  [Bot.IsValid] returns no error exactly when the seven invariants
    hold; otherwise it returns the one failure written at the check of
    the first rule, in the fixed order, that the entity violates (every
    rule before it holds, no later one is looked at), and that failure
    carries the operation name, the trace of the entity and status 400. *)
Theorem Bot_IsValid_first_failure (V : string -> bool) (MAX : Z) (b : Bot) :
  (Bot_IsValid V MAX b = None <-> forall r, holds V MAX b r = true)
  /\ Bot_IsValid V MAX b = option_map (failure_of b) (first_violated V MAX b)
  /\ (forall e, Bot_IsValid V MAX b = Some e ->
      StatusCode e = 400 /\ Where e = "Bot.IsValid"
      /\ Params e = [("user_id", UserId b)]
      /\ exists r, first_violated V MAX b = Some r
           /\ e = failure_of b r
           /\ holds V MAX b r = false
           /\ forall r', (rule_index r' < rule_index r)%nat -> holds V MAX b r' = true).
Proof.
  pose proof (Bot_IsValid_find V MAX b) as Hfind.
  split; [|split].
  - rewrite Hfind, <- first_violated_none.
    destruct (first_violated V MAX b); simpl; split; intros; congruence.
  - exact Hfind.
  - intros e He. rewrite Hfind in He.
    destruct (first_violated V MAX b) as [r|] eqn:E; simpl in He; [|discriminate].
    injection He as <-.
    repeat split; try reflexivity.
    exists r. repeat split.
    + eapply first_violated_some; eassumption.
    + intros r' Hlt. eapply first_violated_first; eassumption.
Qed.

Lemma Bot_IsValid_first_failure_witness :
  Bot_IsValid example_IsValidUsername 64 example_bot = None
  /\ Bot_IsValid example_IsValidUsername 64 short_id_bot
     = Some (failure_of short_id_bot RuleUserId).
Proof.
  split.
  - apply (proj1 (Bot_IsValid_first_failure example_IsValidUsername 64 example_bot)).
    intros r; destruct r; vm_compute; reflexivity.
  - rewrite (proj1 (proj2 (Bot_IsValid_first_failure example_IsValidUsername 64
                             short_id_bot))).
    vm_compute. reflexivity.
Defined.

(** C2.  An entity that passes the identity and username checks and whose
    display name exceeds the bound is rejected at the display-name
    check, with the message key of the identity check: the key does not
    name the rule that failed. *)
Theorem display_name_failure_has_user_id_key (V : string -> bool) (MAX : Z) (b : Bot) :
  len (UserId b) = 26 ->
  V (Username b) = true ->
  utf8.RuneCountInString (DisplayName b) > MAX ->
  first_violated V MAX b = Some RuleDisplayName
  /\ Bot_IsValid V MAX b
     = Some (NewAppError "Bot.IsValid" "model.bot.is_valid.user_id.app_error"
               (Bot_Trace b) "" 400)
  /\ option_map Id (Bot_IsValid V MAX b) = Some (own_key RuleUserId)
  /\ option_map Id (Bot_IsValid V MAX b) <> Some (own_key RuleDisplayName).
Proof.
  intros Hid Hname Hlong.
  assert (first_violated V MAX b = Some RuleDisplayName) as Hfirst.
  { unfold first_violated, rules_in_order, find, holds, BOT_DISPLAY_NAME_MAX_RUNES.
    rewrite Hid, Hname. simpl.
    destruct (Z.leb_spec (utf8.RuneCountInString (DisplayName b)) MAX); [lia|].
    reflexivity. }
  rewrite Bot_IsValid_find, Hfirst. simpl.
  repeat split. discriminate.
Qed.

Lemma display_name_failure_has_user_id_key_witness :
  Bot_IsValid example_IsValidUsername 64 long_name_bot
  = Some (NewAppError "Bot.IsValid" "model.bot.is_valid.user_id.app_error"
            [("user_id", id26)] "" 400).
Proof.
  apply (display_name_failure_has_user_id_key example_IsValidUsername 64 long_name_bot);
    vm_compute; reflexivity.
Defined.

(** The boundaries of the length and rune-count rules. *)
Example identity_length_boundary :
  holds example_IsValidUsername 64 example_bot RuleUserId = true
  /\ holds example_IsValidUsername 64 short_id_bot RuleUserId = false
  /\ holds example_IsValidUsername 64
       (mkBot (id26 ++ "z") "testbot" "" "" id26 1 1 0) RuleUserId = false.
Proof. vm_compute. repeat split. Qed.

Example description_rune_boundary :
  Bot_IsValid example_IsValidUsername 64
    (mkBot id26 "testbot" "" (repeat_string 1024 "d") id26 1 1 0) = None
  /\ option_map Id
       (Bot_IsValid example_IsValidUsername 64
          (mkBot id26 "testbot" "" (repeat_string 1025 "d") id26 1 1 0))
     = Some "model.bot.is_valid.description.app_error".
Proof. vm_compute. repeat split. Qed.

(* ================================================================= *)
(** ** Cache tokens *)

Lemma Etag_loop_below (l : list Bot) (id : string) (t : Z) :
  (forall x, In x l -> UpdateAt x <= t) ->
  BotList_Etag_loop (map Some l) id t = Some (id, t).
Proof.
  induction l as [|v l IH]; intros H; simpl; [reflexivity|].
  destruct (Z.gtb_spec (UpdateAt v) t) as [Hgt|_].
  - specialize (H v (or_introl eq_refl)). lia.
  - apply IH. intros x Hx. apply H. now right.
Qed.

Lemma Etag_loop_prefix (pre : list Bot) (rest : BotList) (bound : Z) :
  (forall x, In x pre -> UpdateAt x < bound) ->
  forall id t, t < bound ->
  exists id' t', t' < bound
    /\ BotList_Etag_loop (map Some pre ++ rest)%list id t = BotList_Etag_loop rest id' t'.
Proof.
  induction pre as [|v pre IH]; intros H id t Ht; simpl.
  - exists id, t. split; [assumption|reflexivity].
  - assert (UpdateAt v < bound) as Hv by (apply H; now left).
    assert (forall x, In x pre -> UpdateAt x < bound) as H'
        by (intros x Hx; apply H; now right).
    destruct (UpdateAt v >? t).
    + apply (IH H' (UserId v) (UpdateAt v) Hv).
    + apply (IH H' id t Ht).
Qed.

Lemma BotList_Etag_parts_first_maximum (pre post : list Bot) (b : Bot) :
  0 < UpdateAt b ->
  (forall x, In x pre -> UpdateAt x < UpdateAt b) ->
  (forall x, In x post -> UpdateAt x <= UpdateAt b) ->
  BotList_Etag_parts (map Some (pre ++ b :: post)%list)
  = Some [PartString (UserId b); PartInt64 (UpdateAt b); PartInt64 0;
          PartInt (Z.of_nat (List.length (pre ++ b :: post)%list))].
Proof.
  intros Hpos Hpre Hpost. unfold BotList_Etag_parts.
  rewrite length_map, map_app. cbn [map].
  destruct (Etag_loop_prefix pre (Some b :: map Some post) (UpdateAt b) Hpre "0" 0 Hpos)
    as (id' & t' & Ht' & ->).
  cbn [BotList_Etag_loop].
  destruct (Z.gtb_spec (UpdateAt b) t') as [_|Hle]; [|lia].
  rewrite (Etag_loop_below post (UserId b) (UpdateAt b) Hpost).
  reflexivity.
Qed.

(** Every non-empty collection splits at the first entity that attains
    its greatest timestamp. *)
Lemma first_maximum_exists (l : list Bot) :
  l <> [] ->
  exists pre b post,
    l = (pre ++ b :: post)%list
    /\ (forall x, In x pre -> UpdateAt x < UpdateAt b)
    /\ (forall x, In x post -> UpdateAt x <= UpdateAt b).
Proof.
  induction l as [|v l IH]; intros Hne; [contradiction|].
  destruct l as [|w l].
  - exists [], v, []. repeat split; intros x [].
  - destruct IH as (pre & b & post & E & Hpre & Hpost); [discriminate|].
    destruct (Z_lt_le_dec (UpdateAt v) (UpdateAt b)) as [Hlt|Hge].
    + exists (v :: pre), b, post. rewrite E. repeat split; [|exact Hpost].
      intros x [<-|Hx]; [exact Hlt|now apply Hpre].
    + exists [], v, (w :: l). repeat split; [intros x []|].
      intros x Hx. rewrite E in Hx. apply in_app_or in Hx.
      destruct Hx as [Hx|[<-|Hx]].
      * specialize (Hpre x Hx). lia.
      * exact Hge.
      * specialize (Hpost x Hx). lia.
Qed.

(** C1 (amended).  In a collection whose greatest [UpdateAt] is positive,
    the token is derived from the first entity, in iteration order, that
    attains it: every entity before [b] has a smaller timestamp, no
    entity after [b] a greater one, and the token is [Etag] of the
    identity of [b], its timestamp, delta 0 and the length. *)
Theorem BotList_Etag_first_maximum (Etag : list etag_part -> string)
  (pre post : list Bot) (b : Bot) :
  0 < UpdateAt b ->
  (forall x, In x pre -> UpdateAt x < UpdateAt b) ->
  (forall x, In x post -> UpdateAt x <= UpdateAt b) ->
  BotList_Etag Etag (map Some (pre ++ b :: post)%list)
  = Some (Etag [PartString (UserId b); PartInt64 (UpdateAt b); PartInt64 0;
                PartInt (Z.of_nat (List.length (pre ++ b :: post)%list))]).
Proof.
  intros Hpos Hpre Hpost. unfold BotList_Etag.
  rewrite (BotList_Etag_parts_first_maximum pre post b Hpos Hpre Hpost).
  reflexivity.
Qed.

Lemma BotList_Etag_first_maximum_witness :
  BotList_Etag example_Etag abc_list
  = Some (example_Etag [PartString "b"; PartInt64 300; PartInt64 0; PartInt 3]).
Proof.
  apply (BotList_Etag_first_maximum example_Etag [bot_a] [bot_c] bot_b).
  - reflexivity.
  - intros x [<-|[]]. reflexivity.
  - intros x [<-|[]]. discriminate.
Defined.

(** C1 as stated fails on the specification's own example: the parts
    handed to [Etag] name "b", not "c", and no reading of [Etag] as an
    arbitrary function makes the token the one of "c". *)
Lemma BotList_Etag_last_maximum_fails :
  BotList_Etag_parts abc_list
  = Some [PartString "b"; PartInt64 300; PartInt64 0; PartInt 3]
  /\ BotList_Etag_parts abc_list
     <> Some [PartString "c"; PartInt64 300; PartInt64 0; PartInt 3]
  /\ ~ (forall Etag : list etag_part -> string,
          BotList_Etag Etag abc_list
          = Some (Etag [PartString "c"; PartInt64 300; PartInt64 0; PartInt 3])).
Proof.
  split; [reflexivity|]. split; [discriminate|].
  intros H. specialize (H example_Etag). vm_compute in H. discriminate.
Qed.

(** C9.  On the empty collection [BotList.Etag] calls [Etag] with the
    sentinel identity "0", timestamp 0, delta 0 and length 0. *)
Theorem BotList_Etag_empty (Etag : list etag_part -> string) :
  BotList_Etag Etag []
  = Some (Etag [PartString "0"; PartInt64 0; PartInt64 0; PartInt 0]).
Proof. reflexivity. Qed.

(** Where no timestamp is positive the sentinel stays. *)
Lemma BotList_Etag_parts_no_positive (l : list Bot) :
  (forall x, In x l -> UpdateAt x <= 0) ->
  BotList_Etag_parts (map Some l)
  = Some [PartString "0"; PartInt64 0; PartInt64 0;
          PartInt (Z.of_nat (List.length l))].
Proof.
  intros H. unfold BotList_Etag_parts.
  rewrite (Etag_loop_below l "0" 0 H), length_map. reflexivity.
Qed.

(** A nil element makes the loop panic. *)
Example BotList_Etag_nil_element :
  BotList_Etag example_Etag [Some bot_a; None] = None.
Proof. reflexivity. Qed.

(* ================================================================= *)
(** ** Patching *)

(** C6.  Applying a patch twice yields the state of applying it once. *)
Theorem Bot_Patch_idempotent (b : Bot) (p : BotPatch) :
  Bot_Patch (Bot_Patch b p) p = Bot_Patch b p.
Proof.
  destruct p as [[u|] [n|] [d|]]; reflexivity.
Qed.

(** C7.  [Bot.Patch] writes a field exactly when the patch provides it,
    never touches the identity, the creator or a timestamp, and a patch
    that provides nothing changes nothing. *)
Theorem Bot_Patch_frame (b : Bot) (p : BotPatch) :
  Username (Bot_Patch b p)
  = match Patch_Username p with Some v => v | None => Username b end
  /\ DisplayName (Bot_Patch b p)
     = match Patch_DisplayName p with Some v => v | None => DisplayName b end
  /\ Description (Bot_Patch b p)
     = match Patch_Description p with Some v => v | None => Description b end
  /\ UserId (Bot_Patch b p) = UserId b
  /\ CreatorId (Bot_Patch b p) = CreatorId b
  /\ CreateAt (Bot_Patch b p) = CreateAt b
  /\ UpdateAt (Bot_Patch b p) = UpdateAt b
  /\ DeleteAt (Bot_Patch b p) = DeleteAt b
  /\ Bot_Patch b (mkBotPatch None None None) = b.
Proof.
  destruct b, p as [[u|] [n|] [d|]]; repeat split.
Qed.

Example Bot_Patch_example :
  Bot_Patch example_bot example_patch
  = mkBot id26 "renamed" "Test Bot" "" id26 1000 2000 0.
Proof. reflexivity. Qed.

(* ================================================================= *)
(** ** Projection *)

(** C8.  [UserFromBotModel] is a total function of the identity, the
    username and the display name of the bot alone. *)
Theorem UserFromBotModel_fields (ToLower : string -> string) (b : Bot) :
  User_Id (UserFromBotModel ToLower b) = UserId b
  /\ User_Username (UserFromBotModel ToLower b) = Username b
  /\ User_Email (UserFromBotModel ToLower b) = ToLower (Username b) ++ "@localhost"
  /\ User_FirstName (UserFromBotModel ToLower b) = DisplayName b
  /\ forall (description creator : string) (created updated deleted : Z),
       UserFromBotModel ToLower
         (mkBot (UserId b) (Username b) (DisplayName b)
            description creator created updated deleted)
       = UserFromBotModel ToLower b.
Proof. repeat split. Qed.

Example UserFromBotModel_example :
  UserFromBotModel example_ToLower
    (mkBot id26 "TestBot" "Test Bot" "a bot" id26 1000 2000 0)
  = mkUser id26 "TestBot" "testbot@localhost" "Test Bot".
Proof. reflexivity. Qed.

(* ================================================================= *)
(** ** The wire codec *)

(** ** Strings *)

Lemma append_assoc (a b c : string) : (a ++ b) ++ c = a ++ (b ++ c).
Proof. induction a as [|x a IH]; simpl; [reflexivity|now rewrite IH]. Qed.

Lemma length_append (a b : string) :
  String.length (a ++ b) = (String.length a + String.length b)%nat.
Proof. induction a as [|x a IH]; simpl; [reflexivity|now rewrite IH]. Qed.

(** ** UTF-8 *)

Lemma rune_width_range (s : string) : (utf8.rune_width s <= 4)%nat.
Proof.
  destruct s as [|c0 t]; simpl; [lia|].
  destruct (utf8.first_size c0) as [|[|[|[|[|n]]]]]; try lia.
  - destruct t as [|c1 t]; [lia|]. destruct (utf8.second_ok c0 c1); lia.
  - destruct t as [|c1 [|c2 t]]; try lia.
    destruct (utf8.second_ok c0 c1 && utf8.cont c2); lia.
  - destruct t as [|c1 [|c2 [|c3 t]]]; try lia.
    destruct (utf8.second_ok c0 c1 && utf8.cont c2 && utf8.cont c3); lia.
Qed.

Lemma rune_width_2_inv (c0 : ascii) (t : string) :
  utf8.rune_width (String c0 t) = 2%nat ->
  exists c1 t1, t = String c1 t1 /\ utf8.first_size c0 = 2%nat
                /\ utf8.second_ok c0 c1 = true.
Proof.
  unfold utf8.rune_width.
  destruct (utf8.first_size c0) as [|[|[|[|[|n]]]]]; try discriminate.
  - destruct t as [|c1 t]; [discriminate|].
    destruct (utf8.second_ok c0 c1) eqn:E; [|discriminate].
    intros _. now exists c1, t.
  - destruct t as [|c1 [|c2 t]]; try discriminate.
    destruct (utf8.second_ok c0 c1 && utf8.cont c2); discriminate.
  - destruct t as [|c1 [|c2 [|c3 t]]]; try discriminate.
    destruct (utf8.second_ok c0 c1 && utf8.cont c2 && utf8.cont c3); discriminate.
Qed.

Lemma rune_width_3_inv (c0 : ascii) (t : string) :
  utf8.rune_width (String c0 t) = 3%nat ->
  exists c1 c2 t2, t = String c1 (String c2 t2) /\ utf8.first_size c0 = 3%nat
                   /\ (utf8.second_ok c0 c1 && utf8.cont c2) = true.
Proof.
  unfold utf8.rune_width.
  destruct (utf8.first_size c0) as [|[|[|[|[|n]]]]]; try discriminate.
  - destruct t as [|c1 t]; [discriminate|].
    destruct (utf8.second_ok c0 c1) eqn:E; discriminate.
  - destruct t as [|c1 [|c2 t]]; try discriminate.
    destruct (utf8.second_ok c0 c1 && utf8.cont c2) eqn:E; [|discriminate].
    intros _. now exists c1, c2, t.
  - destruct t as [|c1 [|c2 [|c3 t]]]; try discriminate.
    destruct (utf8.second_ok c0 c1 && utf8.cont c2 && utf8.cont c3); discriminate.
Qed.

Lemma rune_width_4_inv (c0 : ascii) (t : string) :
  utf8.rune_width (String c0 t) = 4%nat ->
  exists c1 c2 c3 t3, t = String c1 (String c2 (String c3 t3))
    /\ utf8.first_size c0 = 4%nat
    /\ (utf8.second_ok c0 c1 && utf8.cont c2 && utf8.cont c3) = true.
Proof.
  unfold utf8.rune_width.
  destruct (utf8.first_size c0) as [|[|[|[|[|n]]]]]; try discriminate.
  - destruct t as [|c1 t]; [discriminate|].
    destruct (utf8.second_ok c0 c1) eqn:E; discriminate.
  - destruct t as [|c1 [|c2 t]]; try discriminate.
    destruct (utf8.second_ok c0 c1 && utf8.cont c2) eqn:E; discriminate.
  - destruct t as [|c1 [|c2 [|c3 t]]]; try discriminate.
    destruct (utf8.second_ok c0 c1 && utf8.cont c2 && utf8.cont c3) eqn:E; [|discriminate].
    intros _. now exists c1, c2, c3, t.
Qed.

Lemma chunks_1 (c : ascii) (t : string) :
  utf8.rune_width (String c t) = 1%nat ->
  utf8.chunks (String c t) = utf8.Valid (str1 c) :: utf8.chunks t.
Proof. intros H. cbn [utf8.chunks]. rewrite H. reflexivity. Qed.

Lemma chunks_0 (c : ascii) (t : string) :
  utf8.rune_width (String c t) = 0%nat ->
  utf8.chunks (String c t) = utf8.Invalid c :: utf8.chunks t.
Proof. intros H. cbn [utf8.chunks]. rewrite H. reflexivity. Qed.

Lemma chunks_2 (c0 c1 : ascii) (t : string) :
  utf8.rune_width (String c0 (String c1 t)) = 2%nat ->
  utf8.chunks (String c0 (String c1 t))
  = utf8.Valid (String c0 (str1 c1)) :: utf8.chunks t.
Proof. intros H. cbn [utf8.chunks]. rewrite H. reflexivity. Qed.

Lemma chunks_3 (c0 c1 c2 : ascii) (t : string) :
  utf8.rune_width (String c0 (String c1 (String c2 t))) = 3%nat ->
  utf8.chunks (String c0 (String c1 (String c2 t)))
  = utf8.Valid (String c0 (String c1 (str1 c2))) :: utf8.chunks t.
Proof. intros H. cbn [utf8.chunks]. rewrite H. reflexivity. Qed.

Lemma chunks_4 (c0 c1 c2 c3 : ascii) (t : string) :
  utf8.rune_width (String c0 (String c1 (String c2 (String c3 t)))) = 4%nat ->
  utf8.chunks (String c0 (String c1 (String c2 (String c3 t))))
  = utf8.Valid (String c0 (String c1 (String c2 (str1 c3)))) :: utf8.chunks t.
Proof. intros H. cbn [utf8.chunks]. rewrite H. reflexivity. Qed.

(** Induction on a string rune by rune. *)
Lemma rune_ind (P : string -> Prop) :
  P EmptyString ->
  (forall c t, utf8.rune_width (String c t) = 1%nat -> P t -> P (String c t)) ->
  (forall c0 c1 t, utf8.rune_width (String c0 (String c1 t)) = 2%nat ->
                   P t -> P (String c0 (String c1 t))) ->
  (forall c0 c1 c2 t, utf8.rune_width (String c0 (String c1 (String c2 t))) = 3%nat ->
                      P t -> P (String c0 (String c1 (String c2 t)))) ->
  (forall c0 c1 c2 c3 t,
      utf8.rune_width (String c0 (String c1 (String c2 (String c3 t)))) = 4%nat ->
      P t -> P (String c0 (String c1 (String c2 (String c3 t))))) ->
  (forall c t, utf8.rune_width (String c t) = 0%nat -> P t -> P (String c t)) ->
  forall s, P s.
Proof.
  intros H0 H1 H2 H3 H4 Hbad s.
  assert (forall n s, (String.length s <= n)%nat -> P s) as Hn.
  { clear s. induction n as [|n IH]; intros s Hlen.
    - destruct s; [exact H0|simpl in Hlen; lia].
    - destruct s as [|c t]; [exact H0|]. simpl in Hlen.
      pose proof (rune_width_range (String c t)) as Hr.
      destruct (utf8.rune_width (String c t)) as [|[|[|[|[|k]]]]] eqn:E; try lia.
      + apply Hbad; [exact E|]. apply IH. lia.
      + apply H1; [exact E|]. apply IH. lia.
      + destruct (rune_width_2_inv _ _ E) as (c1 & t1 & -> & _).
        apply H2; [exact E|]. apply IH. simpl in Hlen. lia.
      + destruct (rune_width_3_inv _ _ E) as (c1 & c2 & t2 & -> & _).
        apply H3; [exact E|]. apply IH. simpl in Hlen. lia.
      + destruct (rune_width_4_inv _ _ E) as (c1 & c2 & c3 & t3 & -> & _).
        apply H4; [exact E|]. apply IH. simpl in Hlen. lia. }
  apply (Hn (String.length s)). lia.
Qed.

(** ** String literals *)

Lemma encode_body_cons (ch : utf8.chunk) (chs : list utf8.chunk) :
  fold_right (fun ch acc => json.encode_chunk ch ++ acc) EmptyString (ch :: chs)
  = json.encode_chunk ch
    ++ fold_right (fun ch acc => json.encode_chunk ch ++ acc) EmptyString chs.
Proof. reflexivity. Qed.

(** An ASCII byte, escaped or not, is read back as itself. *)
Lemma scan_string_ascii (c : ascii) (X : string) :
  (byte_val c <? 128)%N = true ->
  json.scan_string (json.encode_chunk (utf8.Valid (str1 c)) ++ X)
  = json.prepend (str1 c) (json.scan_string X).
Proof.
  destruct c as [b0 b1 b2 b3 b4 b5 b6 b7].
  destruct b7; [destruct b0, b1, b2, b3, b4, b5, b6; discriminate|].
  intros _.
  destruct b0, b1, b2, b3, b4, b5, b6; reflexivity.
Qed.

Lemma first_size_1 (c : ascii) :
  utf8.first_size c = 1%nat -> (byte_val c <? 128)%N = true.
Proof.
  unfold utf8.first_size.
  destruct (byte_val c <? 128)%N; [reflexivity|].
  repeat match goal with |- context [if ?b then _ else _] => destruct b end;
    discriminate.
Qed.

Lemma rune_width_1_first (c : ascii) (t : string) :
  utf8.rune_width (String c t) = 1%nat -> utf8.first_size c = 1%nat.
Proof.
  unfold utf8.rune_width.
  destruct (utf8.first_size c) as [|[|[|[|[|n]]]]]; try discriminate; try reflexivity.
  - destruct t as [|c1 t]; [discriminate|]. destruct (utf8.second_ok c c1); discriminate.
  - destruct t as [|c1 [|c2 t]]; try discriminate.
    destruct (utf8.second_ok c c1 && utf8.cont c2); discriminate.
  - destruct t as [|c1 [|c2 [|c3 t]]]; try discriminate.
    destruct (utf8.second_ok c c1 && utf8.cont c2 && utf8.cont c3); discriminate.
Qed.

(** A leading byte is none of the bytes the scanner treats apart. *)
Lemma leading_byte (c : ascii) :
  (2 <= utf8.first_size c)%nat ->
  Ascii.eqb c dquote = false /\ Ascii.eqb c backslash = false
  /\ (byte_val c <? 32)%N = false /\ (byte_val c <? 128)%N = false.
Proof.
  destruct c as [b0 b1 b2 b3 b4 b5 b6 b7].
  destruct b7.
  - intros _. destruct b0, b1, b2, b3, b4, b5, b6; repeat split.
  - destruct b0, b1, b2, b3, b4, b5, b6; vm_compute; lia.
Qed.

Lemma scan_string_raw (c : ascii) (s1 : string) :
  (2 <= utf8.first_size c)%nat ->
  json.scan_string (String c s1)
  = match utf8.rune_width (String c s1), s1 with
    | 2%nat, String c1 s2 =>
        json.prepend (String c (str1 c1)) (json.scan_string s2)
    | 3%nat, String c1 (String c2 s3) =>
        json.prepend (String c (String c1 (str1 c2))) (json.scan_string s3)
    | 4%nat, String c1 (String c2 (String c3 s4)) =>
        json.prepend (String c (String c1 (String c2 (str1 c3)))) (json.scan_string s4)
    | _, _ => json.prepend json.replacement (json.scan_string s1)
    end.
Proof.
  intros H. destruct (leading_byte c H) as (E1 & E2 & E3 & E4).
  cbn [json.scan_string]. rewrite E1, E2, E3, E4. reflexivity.
Qed.

Lemma rune_width_2_any (c0 c1 : ascii) (t X : string) :
  utf8.rune_width (String c0 (String c1 t)) = 2%nat ->
  utf8.rune_width (String c0 (String c1 X)) = 2%nat.
Proof.
  intros H. destruct (rune_width_2_inv _ _ H) as (c1' & t1 & [= <- <-] & Hf & Hs).
  unfold utf8.rune_width. now rewrite Hf, Hs.
Qed.

Lemma rune_width_3_any (c0 c1 c2 : ascii) (t X : string) :
  utf8.rune_width (String c0 (String c1 (String c2 t))) = 3%nat ->
  utf8.rune_width (String c0 (String c1 (String c2 X))) = 3%nat.
Proof.
  intros H.
  destruct (rune_width_3_inv _ _ H) as (c1' & c2' & t2 & [= <- <- <-] & Hf & Hs).
  unfold utf8.rune_width. now rewrite Hf, Hs.
Qed.

Lemma rune_width_4_any (c0 c1 c2 c3 : ascii) (t X : string) :
  utf8.rune_width (String c0 (String c1 (String c2 (String c3 t)))) = 4%nat ->
  utf8.rune_width (String c0 (String c1 (String c2 (String c3 X)))) = 4%nat.
Proof.
  intros H.
  destruct (rune_width_4_inv _ _ H)
    as (c1' & c2' & c3' & t3 & [= <- <- <- <-] & Hf & Hs).
  unfold utf8.rune_width. now rewrite Hf, Hs.
Qed.

Lemma scan_string_2 (c0 c1 : ascii) (t X : string) :
  utf8.rune_width (String c0 (String c1 t)) = 2%nat ->
  json.scan_string (json.encode_chunk (utf8.Valid (String c0 (str1 c1))) ++ X)
  = json.prepend (String c0 (str1 c1)) (json.scan_string X).
Proof.
  intros H.
  assert (json.encode_chunk (utf8.Valid (String c0 (str1 c1))) = String c0 (str1 c1))
    as ->.
  { unfold json.encode_chunk, str1, json.line_separator, json.paragraph_separator.
    cbn [String.eqb str1].
    destruct (Ascii.eqb c0 "226"), (Ascii.eqb c1 "128"); reflexivity. }
  cbn [append str1].
  destruct (rune_width_2_inv _ _ H) as (? & ? & _ & Hf & _).
  rewrite scan_string_raw by lia.
  now rewrite (rune_width_2_any c0 c1 t X H).
Qed.

Lemma scan_string_4 (c0 c1 c2 c3 : ascii) (t X : string) :
  utf8.rune_width (String c0 (String c1 (String c2 (String c3 t)))) = 4%nat ->
  json.scan_string
    (json.encode_chunk (utf8.Valid (String c0 (String c1 (String c2 (str1 c3))))) ++ X)
  = json.prepend (String c0 (String c1 (String c2 (str1 c3)))) (json.scan_string X).
Proof.
  intros H.
  assert (json.encode_chunk (utf8.Valid (String c0 (String c1 (String c2 (str1 c3)))))
          = String c0 (String c1 (String c2 (str1 c3)))) as ->.
  { unfold json.encode_chunk, str1, json.line_separator, json.paragraph_separator.
    cbn [String.eqb str1].
    destruct (Ascii.eqb c0 "226"), (Ascii.eqb c1 "128"), (Ascii.eqb c2 "168"),
      (Ascii.eqb c2 "169"); reflexivity. }
  cbn [append str1].
  destruct (rune_width_4_inv _ _ H) as (? & ? & ? & ? & _ & Hf & _).
  rewrite scan_string_raw by lia.
  now rewrite (rune_width_4_any c0 c1 c2 c3 t X H).
Qed.

Lemma scan_string_3 (c0 c1 c2 : ascii) (t X : string) :
  utf8.rune_width (String c0 (String c1 (String c2 t))) = 3%nat ->
  json.scan_string
    (json.encode_chunk (utf8.Valid (String c0 (String c1 (str1 c2)))) ++ X)
  = json.prepend (String c0 (String c1 (str1 c2))) (json.scan_string X).
Proof.
  intros H. unfold json.encode_chunk, str1.
  destruct (String.eqb_spec (String c0 (String c1 (String c2 EmptyString)))
              json.line_separator) as [E|_].
  { injection E as -> -> ->. reflexivity. }
  destruct (String.eqb_spec (String c0 (String c1 (String c2 EmptyString)))
              json.paragraph_separator) as [E|_].
  { injection E as -> -> ->. reflexivity. }
  cbn [append].
  destruct (rune_width_3_inv _ _ H) as (? & ? & ? & _ & Hf & _).
  rewrite scan_string_raw by lia.
  now rewrite (rune_width_3_any c0 c1 c2 t X H).
Qed.

(** The body of an encoded string, read back up to its closing quote,
    is the string, when the string is UTF-8. *)
Lemma scan_string_encode_body (s : string) :
  forall rest,
    utf8.ValidString s = true ->
    json.scan_string (json.encode_body s ++ String dquote rest) = Some (s, rest).
Proof.
  unfold utf8.ValidString, json.encode_body.
  induction s as [|c t H IH|c0 c1 t H IH|c0 c1 c2 t H IH|c0 c1 c2 c3 t H IH|c t H IH]
    using rune_ind; intros rest Hv.
  - reflexivity.
  - rewrite (chunks_1 _ _ H) in *. cbn [forallb utf8.is_valid andb] in Hv.
    rewrite encode_body_cons, append_assoc, scan_string_ascii
      by (apply first_size_1; eapply rune_width_1_first; exact H).
    now rewrite (IH rest Hv).
  - rewrite (chunks_2 _ _ _ H) in *. cbn [forallb utf8.is_valid andb] in Hv.
    rewrite encode_body_cons, append_assoc, (scan_string_2 c0 c1 t _ H).
    now rewrite (IH rest Hv).
  - rewrite (chunks_3 _ _ _ _ H) in *. cbn [forallb utf8.is_valid andb] in Hv.
    rewrite encode_body_cons, append_assoc, (scan_string_3 c0 c1 c2 t _ H).
    now rewrite (IH rest Hv).
  - rewrite (chunks_4 _ _ _ _ _ H) in *. cbn [forallb utf8.is_valid andb] in Hv.
    rewrite encode_body_cons, append_assoc, (scan_string_4 c0 c1 c2 c3 t _ H).
    now rewrite (IH rest Hv).
  - rewrite (chunks_0 _ _ H) in Hv. discriminate.
Qed.

Lemma encode_string_append (s X : string) :
  json.encode_string s ++ X = String dquote (json.encode_body s ++ String dquote X).
Proof.
  unfold json.encode_string, str1. cbn [append]. now rewrite append_assoc.
Qed.

(** ** Integers *)

Lemma pos_to_uint_head (p : positive) : nonzero_head (Pos.to_uint p).
Proof.
  assert (Pos.to_uint p = Decimal.unorm (Pos.to_uint p)) as Hn.
  { rewrite <- (DecimalPos.Unsigned.to_of (Pos.to_uint p)),
      DecimalPos.Unsigned.of_to. reflexivity. }
  destruct (Pos.to_uint p) as [|u|u|u|u|u|u|u|u|u|u] eqn:E; simpl; try exact I.
  - exact (DecimalPos.Unsigned.to_uint_nonnil p E).
  - rewrite unorm_D0 in Hn. unfold Decimal.unorm in Hn.
    destruct (Decimal.nzhead u) eqn:Eu;
      try (symmetry in Hn; rewrite <- Eu in Hn; exact (nzhead_nonzero _ _ Hn)).
    injection Hn as ->. exact (DecimalPos.Unsigned.to_uint_nonzero p E).
Qed.

Lemma span_digits_uint (d : Decimal.uint) (c : ascii) (r : string) :
  delimiter c ->
  json.span_digits (NilEmpty.string_of_uint d ++ String c r)
  = (NilEmpty.string_of_uint d, String c r).
Proof.
  intros Hc.
  induction d as [|d IH|d IH|d IH|d IH|d IH|d IH|d IH|d IH|d IH|d IH];
    cbn [NilEmpty.string_of_uint append json.span_digits];
    try (change (json.is_digit _) with true; cbn iota; now rewrite IH).
  destruct Hc as [-> | ->]; reflexivity.
Qed.

Lemma scan_frac_delimiter (lit : string) (c : ascii) (r : string) :
  delimiter c -> json.scan_frac lit (String c r) = Some (lit, String c r).
Proof. intros [-> | ->]; reflexivity. Qed.

(** A formatted integer followed by a delimiter is read as a number
    literal, whole. *)
Lemma scan_literal_FormatInt (z : Z) (c : ascii) (r : string) :
  delimiter c ->
  json.scan_literal (strconv.FormatInt z ++ String c r)
  = Some (json.Number (strconv.FormatInt z), String c r).
Proof.
  intros Hc. unfold strconv.FormatInt.
  destruct z as [|p|p]; cbn [Z.to_int NilZero.string_of_int].
  - destruct Hc as [-> | ->]; reflexivity.
  - pose proof (pos_to_uint_head p) as Hh.
    destruct (Pos.to_uint p) as [|u|u|u|u|u|u|u|u|u|u]; try contradiction;
      cbn [NilZero.string_of_uint NilEmpty.string_of_uint append
             json.scan_literal json.scan_number];
      change (Ascii.eqb _ "0") with false; cbn iota;
      change (byte_in 49 57 _) with true; cbn iota;
      rewrite span_digits_uint by assumption;
      cbn [append]; now rewrite scan_frac_delimiter.
  - pose proof (pos_to_uint_head p) as Hh.
    destruct (Pos.to_uint p) as [|u|u|u|u|u|u|u|u|u|u]; try contradiction;
      cbn [NilZero.string_of_uint NilEmpty.string_of_uint append
             json.scan_literal json.scan_number];
      change (Ascii.eqb _ "0") with false; cbn iota;
      change (byte_in 49 57 _) with true; cbn iota;
      rewrite span_digits_uint by assumption;
      cbn [append]; now rewrite scan_frac_delimiter.
Qed.

Lemma int64_rangeb_true (z : Z) : int64_range z -> int64_rangeb z = true.
Proof.
  unfold int64_range, int64_rangeb. intros [H1 H2].
  apply andb_true_intro. split; [apply Z.leb_le|apply Z.ltb_lt]; assumption.
Qed.

Lemma ParseInt_FormatInt (z : Z) :
  int64_range z -> strconv.ParseInt (strconv.FormatInt z) = Some z.
Proof.
  intros Hr. pose proof (DecimalZ.of_to z) as Hz.
  unfold strconv.FormatInt, strconv.ParseInt.
  destruct z as [|p|p]; cbn [Z.to_int NilZero.string_of_int] in *.
  - reflexivity.
  - pose proof (pos_to_uint_head p) as Hh. cbn [Z.of_int] in Hz.
    assert (NilZero.uint_of_string (NilZero.string_of_uint (Pos.to_uint p))
            = Some (Pos.to_uint p)) as Hu
        by (apply NilZero.usu, DecimalPos.Unsigned.to_uint_nonnil).
    destruct (Pos.to_uint p) as [|u|u|u|u|u|u|u|u|u|u]; try contradiction;
      cbn [NilZero.string_of_uint NilEmpty.string_of_uint] in *;
      rewrite Hu, Hz; now rewrite (int64_rangeb_true _ Hr).
  - pose proof (pos_to_uint_head p) as Hh. cbn [Z.of_int] in Hz.
    assert (NilZero.uint_of_string (NilZero.string_of_uint (Pos.to_uint p))
            = Some (Pos.to_uint p)) as Hu
        by (apply NilZero.usu, DecimalPos.Unsigned.to_uint_nonnil).
    rewrite Hu, Hz. now rewrite (int64_rangeb_true _ Hr).
Qed.

(** ** Values and members *)

Lemma parse_encode_string (f : nat) (s X : string) :
  utf8.ValidString s = true ->
  json.parse (S f) (json.encode_string s ++ X) = Some (json.Str s, X).
Proof.
  intros Hv. rewrite encode_string_append.
  cbn [json.parse json.skip_space].
  change (json.is_space dquote) with false. cbn iota.
  change (Ascii.eqb dquote "{") with false.
  change (Ascii.eqb dquote "[") with false.
  change (Ascii.eqb dquote dquote) with true. cbn iota.
  now rewrite scan_string_encode_body.
Qed.

Lemma FormatInt_head (z : Z) :
  exists c0 s', strconv.FormatInt z = String c0 s'
                /\ (c0 = "-"%char \/ json.is_digit c0 = true).
Proof.
  unfold strconv.FormatInt.
  destruct z as [|p|p]; cbn [Z.to_int NilZero.string_of_int].
  - exists "0"%char, EmptyString. split; [reflexivity|now right].
  - pose proof (pos_to_uint_head p) as Hh.
    destruct (Pos.to_uint p) as [|u|u|u|u|u|u|u|u|u|u]; try contradiction;
      cbn [NilZero.string_of_uint NilEmpty.string_of_uint];
      eexists _, _; (split; [reflexivity|now right]).
  - eexists _, _. split; [reflexivity|now left].
Qed.

Lemma parse_number_head (f : nat) (c0 : ascii) (Y : string) :
  c0 = "-"%char \/ json.is_digit c0 = true ->
  json.parse (S f) (String c0 Y) = json.scan_literal (String c0 Y).
Proof.
  intros [-> | Hd]; [reflexivity|].
  destruct c0 as [b0 b1 b2 b3 b4 b5 b6 b7].
  destruct b0, b1, b2, b3, b4, b5, b6, b7; try discriminate Hd; reflexivity.
Qed.

Lemma parse_encode_int64 (f : nat) (z : Z) (c : ascii) (r : string) :
  delimiter c ->
  json.parse (S f) (json.encode_int64 z ++ String c r)
  = Some (json.Number (strconv.FormatInt z), String c r).
Proof.
  intros Hc. unfold json.encode_int64.
  rewrite <- (scan_literal_FormatInt z c r Hc).
  destruct (FormatInt_head z) as (c0 & s' & -> & Hh).
  cbn [append]. now apply parse_number_head.
Qed.

Lemma members_cons (f : nat) (k : string) (v : json.value) (Y r : string) :
  utf8.ValidString k = true ->
  json.parse f Y = Some (v, String "," r) ->
  json.members (S f) (json_key k ++ Y)
  = match json.members f (json.skip_space r) with
    | Some (kvs, r') => Some ((k, v) :: kvs, r')
    | None => None
    end.
Proof.
  intros Hk Hv. unfold json_key.
  rewrite append_assoc, encode_string_append.
  cbn [json.members].
  change (Ascii.eqb dquote dquote) with true. cbn iota.
  rewrite (scan_string_encode_body k _ Hk).
  cbn [append json.skip_space].
  change (json.is_space ":") with false. cbn iota.
  rewrite Hv. cbn [json.skip_space].
  change (json.is_space ",") with false. cbn iota.
  reflexivity.
Qed.

Lemma members_last (f : nat) (k : string) (v : json.value) (Y r : string) :
  utf8.ValidString k = true ->
  json.parse f Y = Some (v, String "}" r) ->
  json.members (S f) (json_key k ++ Y) = Some ([(k, v)], r).
Proof.
  intros Hk Hv. unfold json_key.
  rewrite append_assoc, encode_string_append.
  cbn [json.members].
  change (Ascii.eqb dquote dquote) with true. cbn iota.
  rewrite (scan_string_encode_body k _ Hk).
  cbn [append json.skip_space].
  change (json.is_space ":") with false. cbn iota.
  rewrite Hv. cbn [json.skip_space].
  change (json.is_space "}") with false. cbn iota.
  reflexivity.
Qed.

Lemma skip_space_json_key (k X : string) :
  json.skip_space (json_key k ++ X) = json_key k ++ X.
Proof.
  unfold json_key. rewrite append_assoc, encode_string_append. reflexivity.
Qed.

(** ** The wire form of a bot *)

Lemma parse_object_open (f : nat) (k X : string) :
  json.parse (S f) (String "{" (json_key k ++ X))
  = match json.members f (json_key k ++ X) with
    | Some (kvs, r) => Some (json.Object kvs, r)
    | None => None
    end.
Proof.
  unfold json_key. rewrite append_assoc, encode_string_append. reflexivity.
Qed.

(** An object of five string members and three integer members, as
    [Marshal] writes it, is read back member by member. *)
Lemma parse_object_5_3 (f : nat) (k1 k2 k3 k4 k5 k6 k7 k8 s1 s2 s3 s4 s5 : string)
  (z1 z2 z3 : Z) :
  Forall (fun s => utf8.ValidString s = true)
    [k1; k2; k3; k4; k5; k6; k7; k8; s1; s2; s3; s4; s5] ->
  json.parse (10 + f)
    ("{" ++ json_key k1 ++ json.encode_string s1
     ++ "," ++ json_key k2 ++ json.encode_string s2
     ++ "," ++ json_key k3 ++ json.encode_string s3
     ++ "," ++ json_key k4 ++ json.encode_string s4
     ++ "," ++ json_key k5 ++ json.encode_string s5
     ++ "," ++ json_key k6 ++ json.encode_int64 z1
     ++ "," ++ json_key k7 ++ json.encode_int64 z2
     ++ "," ++ json_key k8 ++ json.encode_int64 z3
     ++ "}")
  = Some (json.Object
            [(k1, json.Str s1); (k2, json.Str s2); (k3, json.Str s3);
             (k4, json.Str s4); (k5, json.Str s5);
             (k6, json.Number (strconv.FormatInt z1));
             (k7, json.Number (strconv.FormatInt z2));
             (k8, json.Number (strconv.FormatInt z3))], EmptyString).
Proof.
  intros H.
  repeat match goal with
         | H : Forall _ (_ :: _) |- _ => apply Forall_cons_iff in H; destruct H as [? H]
         end.
  change (10 + f)%nat with (S (S (S (S (S (S (S (S (S (S f)))))))))).
  cbn [append]. rewrite parse_object_open.
  repeat (erewrite members_cons;
          [rewrite ?skip_space_json_key
          |assumption
          |first [ apply parse_encode_string; assumption
                 | apply parse_encode_int64; left; reflexivity ]]).
  erewrite members_last;
    [reflexivity|assumption|apply parse_encode_int64; right; reflexivity].
Qed.

Lemma Bot_strings_utf8 (b : Bot) :
  Bot_utf8 b ->
  Forall (fun s => utf8.ValidString s = true)
    ["user_id"; "username"; "display_name"; "description"; "creator_id";
     "create_at"; "update_at"; "delete_at";
     UserId b; Username b; DisplayName b; Description b; CreatorId b].
Proof.
  intros (H1 & H2 & H3 & H4 & H5).
  repeat (apply Forall_cons; [first [assumption | vm_compute; reflexivity]|]).
  apply Forall_nil.
Qed.

Lemma parse_Bot_ToJson (f : nat) (b : Bot) :
  Bot_utf8 b ->
  json.parse (10 + f) (Bot_ToJson b) = Some (json.Object (Bot_members b), EmptyString).
Proof.
  intros H.
  exact (parse_object_5_3 f _ _ _ _ _ _ _ _ _ _ _ _ _ _ _ _ (Bot_strings_utf8 b H)).
Qed.

Lemma Bot_ToJson_length (b : Bot) :
  exists f, S (String.length (Bot_ToJson b)) = (10 + f)%nat.
Proof.
  exists (String.length (Bot_ToJson b) - 9)%nat.
  assert (String.length (json_key "user_id") = 10%nat) as Hk
      by (vm_compute; reflexivity).
  unfold Bot_ToJson. rewrite !length_append, Hk. lia.
Qed.

Lemma store_int64_FormatInt (cur z : Z) :
  int64_range z ->
  json.store_int64 cur (json.Number (strconv.FormatInt z)) = (z, None).
Proof. intros H. unfold json.store_int64. now rewrite ParseInt_FormatInt. Qed.

Lemma store_Bot_members (b : Bot) :
  Bot_wf b ->
  store_Bot_ptr None (json.Object (Bot_members b)) = (Some b, None).
Proof.
  intros (Hc & Hu & Hd).
  unfold store_Bot_ptr, store_Bot, store_members, Bot_members.
  cbn -[strconv.FormatInt json.store_int64].
  rewrite !store_int64_FormatInt by assumption.
  destruct b; reflexivity.
Qed.

(** C5 (amended).  Decoding the serialized form of a bot whose strings
    are UTF-8 reproduces the bot, field by field; validity is not
    needed. *)
Theorem BotFromJson_ToJson (b : Bot) :
  Bot_wf b -> Bot_utf8 b -> BotFromJson (Bot_ToJson b) = Some b.
Proof.
  intros Hwf Hutf.
  unfold BotFromJson, json.Decode, json.readValue.
  destruct (Bot_ToJson_length b) as (f & ->).
  rewrite (parse_Bot_ToJson f b Hutf).
  now rewrite (store_Bot_members b Hwf).
Qed.

Lemma BotFromJson_ToJson_witness :
  BotFromJson (Bot_ToJson example_bot) = Some example_bot.
Proof.
  apply (BotFromJson_ToJson example_bot).
  - repeat split; vm_compute; congruence.
  - repeat split; vm_compute; reflexivity.
Defined.

(** C5 as stated fails on a valid bot: a byte that is not UTF-8 is
    written as U+FFFD and comes back as the three bytes of U+FFFD. *)
Lemma BotFromJson_ToJson_raw_byte :
  Bot_IsValid example_IsValidUsername 64 raw_byte_bot = None
  /\ Bot_wf raw_byte_bot
  /\ BotFromJson (Bot_ToJson raw_byte_bot)
     = Some (mkBot id26 "testbot" "Test Bot"
               (String "239" (String "191" (str1 "189"))) id26 1000 2000 0)
  /\ BotFromJson (Bot_ToJson raw_byte_bot) <> Some raw_byte_bot.
Proof.
  split; [vm_compute; reflexivity|].
  split; [repeat split; vm_compute; congruence|].
  split; [vm_compute; reflexivity|].
  vm_compute. discriminate.
Qed.

(** ** Fuel *)

Ltac break_match H :=
  match type of H with
  | context [match ?x with _ => _ end] =>
      first [is_var x; destruct x | destruct x eqn:?]
  | context [if ?b then _ else _] => destruct b eqn:?
  end.

Lemma skip_space_length (s : string) :
  (String.length (json.skip_space s) <= String.length s)%nat.
Proof.
  induction s as [|c s IH]; simpl; [lia|].
  destruct (json.is_space c); simpl; lia.
Qed.

Lemma prepend_Some (p : string) (o : option (string * string)) (x r : string) :
  json.prepend p o = Some (x, r) -> exists x', o = Some (x', r).
Proof.
  destruct o as [[x' r']|]; simpl; [|discriminate].
  intros [= _ ->]. now exists x'.
Qed.

Lemma scan_string_length (s x r : string) :
  json.scan_string s = Some (x, r) -> (String.length r < String.length s)%nat.
Proof.
  remember (String.length s) as n eqn:Hn.
  assert (String.length s <= n)%nat as Hle by lia. clear Hn.
  revert s x r Hle.
  induction n as [|n IH]; intros s x r Hle H.
  - destruct s; [discriminate|simpl in Hle; lia].
  - destruct s as [|c s1]; [discriminate|].
    cbn [json.scan_string] in H.
    repeat break_match H; try discriminate;
      try (injection H as <- <-);
      try (apply prepend_Some in H; destruct H as (x' & H); apply IH in H);
      cbn [String.length] in *; lia.
Qed.

Lemma span_digits_length (s d r : string) :
  json.span_digits s = (d, r) -> (String.length r <= String.length s)%nat.
Proof.
  revert d r. induction s as [|c s IH]; intros d r H; simpl in H.
  - injection H as <- <-. simpl. lia.
  - destruct (json.is_digit c).
    + destruct (json.span_digits s) as [d' r'] eqn:E.
      injection H as <- <-. specialize (IH _ _ eq_refl). simpl. lia.
    + injection H as <- <-. lia.
Qed.

Ltac break_all :=
  repeat (cbv beta iota in *;
          match goal with
          | H : context [match ?x with _ => _ end] |- _ =>
              first [is_var x; destruct x | destruct x eqn:?]
          | H : context [if ?b then _ else _] |- _ => destruct b eqn:?
          end).

Ltac length_facts :=
  repeat match goal with
         | E : (_, _) = (_, _) |- _ => inversion E; subst; clear E
         | E : Some _ = Some _ |- _ => inversion E; subst; clear E
         | E : json.span_digits _ = _ |- _ => apply span_digits_length in E
         end.

Lemma scan_exp_length (lit s lit' r : string) :
  json.scan_exp lit s = Some (lit', r) -> (String.length r <= String.length s)%nat.
Proof.
  unfold json.scan_exp. intros H.
  break_all; try discriminate; length_facts; cbn [String.length] in *; lia.
Qed.

Lemma scan_frac_length (lit s lit' r : string) :
  json.scan_frac lit s = Some (lit', r) -> (String.length r <= String.length s)%nat.
Proof.
  unfold json.scan_frac. intros H.
  break_all; try discriminate; length_facts;
    apply scan_exp_length in H; cbn [String.length] in *; lia.
Qed.

Lemma scan_number_length (s lit r : string) :
  json.scan_number s = Some (lit, r) -> (String.length r < String.length s)%nat.
Proof.
  unfold json.scan_number. intros H.
  break_all; try discriminate; length_facts;
    apply scan_frac_length in H; cbn [String.length] in *; lia.
Qed.

Lemma scan_literal_length (s : string) (v : json.value) (r : string) :
  json.scan_literal s = Some (v, r) -> (String.length r < String.length s)%nat.
Proof.
  unfold json.scan_literal. intros H.
  break_all; try discriminate; length_facts;
    repeat match goal with
           | E : json.scan_number _ = _ |- _ => apply scan_number_length in E
           end;
    cbn [String.length] in *; lia.
Qed.

Ltac learn_lengths IHp IHm IHe :=
  repeat match goal with
         | E : json.skip_space ?x = _ |- _ =>
             let L := fresh "L" in
             pose proof (skip_space_length x) as L; rewrite E in L; clear E
         | E : json.scan_string _ = Some _ |- _ => apply scan_string_length in E
         | E : json.scan_literal _ = Some _ |- _ => apply scan_literal_length in E
         | E : json.parse _ _ = Some _ |- _ => apply IHp in E
         | E : json.members _ (json.skip_space ?x) = Some _ |- _ =>
             let L := fresh "L" in
             pose proof (skip_space_length x) as L; apply IHm in E
         | E : json.members _ _ = Some _ |- _ => apply IHm in E
         | E : json.elements _ _ = Some _ |- _ => apply IHe in E
         end.

(** Every value, member list and element list takes at least one
    character. *)
Lemma parse_length (f : nat) :
  (forall s v r, json.parse f s = Some (v, r) ->
                 (String.length r < String.length s)%nat)
  /\ (forall s kvs r, json.members f s = Some (kvs, r) ->
                      (String.length r < String.length s)%nat)
  /\ (forall s vs r, json.elements f s = Some (vs, r) ->
                     (String.length r < String.length s)%nat).
Proof.
  induction f as [|f (IHp & IHm & IHe)]; [repeat split; discriminate|].
  repeat split; intros s x r H.
  - cbn [json.parse] in H.
    repeat break_match H; try discriminate; length_facts;
      learn_lengths IHp IHm IHe; cbn [String.length] in *; lia.
  - cbn [json.members] in H.
    repeat break_match H; try discriminate; length_facts;
      learn_lengths IHp IHm IHe; cbn [String.length] in *; lia.
  - cbn [json.elements] in H.
    repeat break_match H; try discriminate; length_facts;
      learn_lengths IHp IHm IHe; cbn [String.length] in *; lia.
Qed.

Ltac skip_facts :=
  repeat match goal with
         | E : json.skip_space ?x = _ |- _ =>
             let L := fresh "L" in
             pose proof (skip_space_length x) as L; rewrite E in L; clear E
         end.

(** A parse that succeeds with some fuel succeeds, with the same result,
    with any fuel that is at least the number of characters it
    consumes. *)
Lemma parse_fuel (f' : nat) :
  (forall s v r, json.parse f' s = Some (v, r) ->
     forall f, (String.length s - String.length r <= f)%nat ->
               json.parse f s = Some (v, r))
  /\ (forall s kvs r, json.members f' s = Some (kvs, r) ->
        forall f, (String.length s - String.length r <= f)%nat ->
                  json.members f s = Some (kvs, r))
  /\ (forall s vs r, json.elements f' s = Some (vs, r) ->
        forall f, (String.length s - String.length r <= f)%nat ->
                  json.elements f s = Some (vs, r)).
Proof.
  induction f' as [|f' (IHp & IHm & IHe)]; [repeat split; discriminate|].
  destruct (parse_length f') as (Lp & Lm & Le).
  repeat split; intros s x r H f Hf.
  - pose proof (proj1 (parse_length (S f')) _ _ _ H) as Hlt.
    destruct f as [|f]; [lia|].
    cbn [json.parse] in H |- *.
    destruct (json.skip_space s) as [|c r0] eqn:Es; [discriminate|].
    destruct (Ascii.eqb c "{").
    { destruct (json.skip_space r0) as [|c' r'] eqn:E0; [discriminate|].
      destruct (Ascii.eqb c' "}"); [exact H|].
      destruct (json.members f' (String c' r')) as [[kvs r'']|] eqn:Em; [|discriminate].
      injection H as <- <-. skip_facts.
      rewrite (IHm _ _ _ Em f); [reflexivity|]. cbn [String.length] in *. lia. }
    destruct (Ascii.eqb c "[").
    { destruct (json.skip_space r0) as [|c' r'] eqn:E0; [discriminate|].
      destruct (Ascii.eqb c' "]"); [exact H|].
      destruct (json.elements f' (String c' r')) as [[vs r'']|] eqn:Em; [|discriminate].
      injection H as <- <-. skip_facts.
      rewrite (IHe _ _ _ Em f); [reflexivity|]. cbn [String.length] in *. lia. }
    exact H.
  - pose proof (proj1 (proj2 (parse_length (S f'))) _ _ _ H) as Hlt.
    destruct f as [|f]; [lia|].
    cbn [json.members] in H |- *.
    destruct s as [|c r_]; [discriminate|].
    destruct (Ascii.eqb c dquote); [|discriminate].
    destruct (json.scan_string r_) as [[k r1]|] eqn:Ek; [|discriminate].
    apply scan_string_length in Ek.
    destruct (json.skip_space r1) as [|c2 r2] eqn:E1; [discriminate|].
    destruct (Ascii.eqb c2 ":"); [|discriminate].
    destruct (json.parse f' r2) as [[v r3]|] eqn:Ep; [|discriminate].
    pose proof (skip_space_length r1) as L1. rewrite E1 in L1. clear E1.
    pose proof (Lp _ _ _ Ep) as Lv.
    destruct (json.skip_space r3) as [|c4 r4] eqn:E3; [discriminate|].
    pose proof (skip_space_length r3) as L3. rewrite E3 in L3.
    cbn [String.length] in *.
    destruct (Ascii.eqb c4 ",") eqn:Ec.
    + destruct (json.members f' (json.skip_space r4)) as [[kvs r5]|] eqn:Em;
        [|discriminate].
      injection H as <- <-.
      pose proof (Lm _ _ _ Em) as Lk. pose proof (skip_space_length r4) as L4.
      rewrite (IHp _ _ _ Ep f), E3, Ec by lia.
      rewrite (IHm _ _ _ Em f) by lia.
      reflexivity.
    + destruct (Ascii.eqb c4 "}") eqn:Ec'; [|discriminate].
      injection H as <- <-.
      rewrite (IHp _ _ _ Ep f), E3, Ec, Ec' by lia.
      reflexivity.
  - pose proof (proj2 (proj2 (parse_length (S f'))) _ _ _ H) as Hlt.
    destruct f as [|f]; [lia|].
    cbn [json.elements] in H |- *.
    destruct (json.parse f' s) as [[v r1]|] eqn:Ep; [|discriminate].
    pose proof (Lp _ _ _ Ep) as Lv.
    destruct (json.skip_space r1) as [|c2 r2] eqn:E1; [discriminate|].
    pose proof (skip_space_length r1) as L1. rewrite E1 in L1.
    cbn [String.length] in *.
    destruct (Ascii.eqb c2 ",") eqn:Ec.
    + destruct (json.elements f' r2) as [[vs r3]|] eqn:Ee; [|discriminate].
      injection H as <- <-.
      pose proof (Le _ _ _ Ee) as Lk.
      rewrite (IHp _ _ _ Ep f), E1, Ec by lia.
      rewrite (IHe _ _ _ Ee f) by lia.
      reflexivity.
    + destruct (Ascii.eqb c2 "]") eqn:Ec'; [|discriminate].
      injection H as <- <-.
      rewrite (IHp _ _ _ Ep f), E1, Ec, Ec' by lia.
      reflexivity.
Qed.

(** The fuel [readValue] gives is enough: a text it refuses is refused
    with every fuel. *)
Theorem parse_fuel_enough (data : string) :
  json.readValue data = None <-> forall f, json.parse f data = None.
Proof.
  unfold json.readValue. split.
  - intros H f.
    destruct (json.parse f data) as [[v r]|] eqn:E; [|reflexivity].
    rewrite (proj1 (parse_fuel f) _ _ _ E (S (String.length data))) in H by lia.
    discriminate.
  - intros H. now rewrite H.
Qed.

(* ================================================================= *)
(** ** Decoding what is not a bot *)

(** C4.  On malformed JSON the decoder reports a syntax error and leaves
    its target alone; [BotFromJson] and [BotListFromJson] drop the error
    and return the zero value of their result type (the nil pointer, the
    nil slice); [BotPatchFromJson] returns nil, which no decoding without
    error returns, the patch without overrides included. *)
Theorem malformed_json_decoding (data : string) :
  json.readValue data = None ->
  json.Decode store_Bot_ptr data None = (None, Some json.SyntaxError)
  /\ BotFromJson data = None
  /\ json.Decode store_BotList data [] = ([], Some json.SyntaxError)
  /\ BotListFromJson data = []
  /\ BotPatchFromJson data = None
  /\ (forall data' p,
        json.Decode store_BotPatch data' BotPatch_zero = (p, None) ->
        BotPatchFromJson data' = Some p
        /\ BotPatchFromJson data' <> BotPatchFromJson data)
  /\ BotPatchFromJson "{}" = Some (mkBotPatch None None None).
Proof.
  intros H.
  assert (BotPatchFromJson data = None) as Hp
      by (unfold BotPatchFromJson, json.Decode; now rewrite H).
  assert (forall data' p,
             json.Decode store_BotPatch data' BotPatch_zero = (p, None) ->
             BotPatchFromJson data' = Some p) as Hok
      by (intros data' p H'; unfold BotPatchFromJson; now rewrite H').
  split; [unfold json.Decode; now rewrite H|].
  split; [unfold BotFromJson, json.Decode; now rewrite H|].
  split; [unfold json.Decode; now rewrite H|].
  split; [unfold BotListFromJson, json.Decode; now rewrite H|].
  split; [exact Hp|].
  split; [|reflexivity].
  intros data' p H'. rewrite Hp, (Hok data' p H').
  split; [reflexivity|discriminate].
Qed.

Lemma malformed_json_decoding_witness :
  BotFromJson "{" = None /\ BotListFromJson "{" = [] /\ BotPatchFromJson "{" = None.
Proof.
  pose proof (malformed_json_decoding "{" eq_refl) as (_ & H1 & _ & H2 & H3 & _).
  exact (conj H1 (conj H2 H3)).
Defined.

(** C10.  On a text that is malformed or whose value is null,
    [BotFromJson] returns nil, not a zero-valued entity; every object
    decodes to an entity, so nil is returned for no object, and it is
    what [BotPatchFromJson] returns on every decode error. *)
Theorem BotFromJson_nil (data : string) :
  json.readValue data = None \/ json.readValue data = Some json.Null ->
  BotFromJson data = None
  /\ BotFromJson data <> Some Bot_zero
  /\ (forall data' kvs,
        json.readValue data' = Some (json.Object kvs) ->
        exists b, BotFromJson data' = Some b /\ BotFromJson data' <> BotFromJson data)
  /\ (forall data' e,
        snd (json.Decode store_BotPatch data' BotPatch_zero) = Some e ->
        BotPatchFromJson data' = None).
Proof.
  intros H.
  assert (BotFromJson data = None) as Hnil.
  { unfold BotFromJson, json.Decode. destruct H as [-> | ->]; reflexivity. }
  rewrite Hnil. repeat split; try discriminate.
  - intros data' kvs H'. unfold BotFromJson, json.Decode. rewrite H'.
    cbn [store_Bot_ptr].
    destruct (store_Bot Bot_zero (json.Object kvs)) as [b e].
    exists b. split; [reflexivity|discriminate].
  - intros data' e H'. unfold BotPatchFromJson.
    destruct (json.Decode store_BotPatch data' BotPatch_zero) as [p err].
    cbn [snd] in H'. now rewrite H'.
Qed.

Lemma BotFromJson_nil_witness :
  BotFromJson "{" = None /\ BotFromJson "null" = None.
Proof.
  split.
  - exact (proj1 (BotFromJson_nil "{" (or_introl eq_refl))).
  - exact (proj1 (BotFromJson_nil "null" (or_intror eq_refl))).
Defined.

(** What the decoders return on texts of each kind. *)
Example BotFromJson_examples :
  BotFromJson "{}" = Some Bot_zero
  /\ BotFromJson "nul" = None
  /\ BotFromJson EmptyString = None
  /\ BotFromJson (json_text "{'user_id':'a','Update_At':7,'extra':[1,{'k':null}]} x")
     = Some (mkBot "a" "" "" "" "" 0 7 0)
  /\ BotFromJson (json_text "{'user_id':5,'username':'b'}")
     = Some (mkBot "" "b" "" "" "" 0 0 0).
Proof. vm_compute. repeat split. Qed.

Example BotPatchFromJson_examples :
  BotPatchFromJson (json_text "{'username':'a','description':null}")
  = Some (mkBotPatch (Some "a") None None)
  /\ BotPatchFromJson "null" = Some BotPatch_zero
  /\ BotPatchFromJson (json_text "{'username':5}") = None
  /\ BotPatchFromJson (json_text "{'username':'a'") = None.
Proof. vm_compute. repeat split. Qed.

Example BotListFromJson_examples :
  BotListFromJson (json_text "[{'user_id':'a'},null]")
  = [Some (mkBot "a" "" "" "" "" 0 0 0); None]
  /\ BotListFromJson (json_text "[{'user_id':'a'},null") = []
  /\ BotListFromJson "[]" = [].
Proof. vm_compute. repeat split. Qed.

(* ================================================================= *)
(** * Further properties *)

(* ================================================================= *)
(** ** Life cycle and validation *)

Lemma Bot_IsValid_none_iff (V : string -> bool) (MAX : Z) (b : Bot) :
  Bot_IsValid V MAX b = None <-> forall r, holds V MAX b r = true.
Proof.
  rewrite Bot_IsValid_find, <- first_violated_none.
  destruct (first_violated V MAX b); simpl; split; intros; congruence.
Qed.

(** The five rules on the fields that the life cycle does not write. *)
Lemma holds_all_split (V : string -> bool) (MAX : Z) (b : Bot) :
  (forall r, holds V MAX b r = true)
  <-> (holds V MAX b RuleUserId = true /\ holds V MAX b RuleUsername = true
       /\ holds V MAX b RuleDisplayName = true
       /\ holds V MAX b RuleDescription = true
       /\ holds V MAX b RuleCreatorId = true)
      /\ CreateAt b <> 0 /\ UpdateAt b <> 0.
Proof.
  split.
  - intros H.
    pose proof (H RuleCreateAt) as Hc. pose proof (H RuleUpdateAt) as Hu.
    cbn [holds] in Hc, Hu.
    apply negb_true_iff, Z.eqb_neq in Hc. apply negb_true_iff, Z.eqb_neq in Hu.
    repeat split; try apply H; assumption.
  - intros ((H1 & H2 & H3 & H4 & H5) & Hc & Hu) r.
    destruct r; try assumption; cbn [holds];
      apply negb_true_iff, Z.eqb_neq; assumption.
Qed.

(** X1.  After [PreSave] a bot is valid exactly when the clock reading is
    not zero and its identity, username, display name, description and
    creator pass their rules: the timestamps it had do not matter, and
    both timestamps are the reading, the deletion time zero. *)
Theorem Bot_PreSave_valid (V : string -> bool) (MAX now : Z) (b : Bot) :
  (Bot_IsValid V MAX (Bot_PreSave now b) = None
   <-> now <> 0
       /\ holds V MAX b RuleUserId = true /\ holds V MAX b RuleUsername = true
       /\ holds V MAX b RuleDisplayName = true
       /\ holds V MAX b RuleDescription = true
       /\ holds V MAX b RuleCreatorId = true)
  /\ CreateAt (Bot_PreSave now b) = now
  /\ UpdateAt (Bot_PreSave now b) = now
  /\ DeleteAt (Bot_PreSave now b) = 0.
Proof.
  split; [|repeat split].
  rewrite Bot_IsValid_none_iff, holds_all_split.
  cbn [holds Bot_PreSave UserId Username DisplayName Description CreatorId
         CreateAt UpdateAt]. tauto.
Qed.

Lemma holds_PreUpdate (V : string -> bool) (MAX now : Z) (b : Bot) (r : rule) :
  r <> RuleUpdateAt ->
  holds V MAX (Bot_PreUpdate now b) r = holds V MAX b r.
Proof. destruct r; intros H; try reflexivity. now destruct H. Qed.

(** X2.  After [PreUpdate] a bot is valid exactly when the clock reading
    is not zero and every rule but the one on [UpdateAt] held before: a
    valid bot stays valid under a clock that does not read zero, and a
    bot that failed only on [UpdateAt] becomes valid. *)
Theorem Bot_PreUpdate_valid (V : string -> bool) (MAX now : Z) (b : Bot) :
  Bot_IsValid V MAX (Bot_PreUpdate now b) = None
  <-> now <> 0 /\ forall r, r <> RuleUpdateAt -> holds V MAX b r = true.
Proof.
  rewrite Bot_IsValid_none_iff. split.
  - intros H. split.
    + specialize (H RuleUpdateAt). cbn [holds Bot_PreUpdate UpdateAt] in H.
      now apply negb_true_iff, Z.eqb_neq in H.
    + intros r Hr. rewrite <- (holds_PreUpdate V MAX now b r Hr). apply H.
  - intros (Hn & H) r.
    destruct r;
      try (rewrite holds_PreUpdate by discriminate; apply H; discriminate).
    cbn [holds Bot_PreUpdate UpdateAt]. now apply negb_true_iff, Z.eqb_neq.
Qed.

(* ================================================================= *)
(** ** Patching *)

Lemma Bot_Patch_keeps (b : Bot) (p : BotPatch) :
  UserId (Bot_Patch b p) = UserId b /\ CreatorId (Bot_Patch b p) = CreatorId b
  /\ CreateAt (Bot_Patch b p) = CreateAt b /\ UpdateAt (Bot_Patch b p) = UpdateAt b
  /\ DeleteAt (Bot_Patch b p) = DeleteAt b.
Proof. destruct p as [[u|] [n|] [d|]]; repeat split. Qed.

(** X3.  Two patches applied one after the other are one patch: field by
    field the later value, where the second patch provides none the
    earlier one. *)
Theorem Bot_Patch_then (b : Bot) (p q : BotPatch) :
  Bot_Patch (Bot_Patch b p) q = Bot_Patch b (BotPatch_then p q).
Proof.
  destruct p as [[u|] [n|] [d|]], q as [[u'|] [n'|] [d'|]]; reflexivity.
Qed.

(** X4.  [Patch] does not validate: on a valid bot the result is valid
    exactly when the values the patch provides pass the rules of their
    fields. *)
Theorem Bot_Patch_valid (V : string -> bool) (MAX : Z) (b : Bot) (p : BotPatch) :
  Bot_IsValid V MAX b = None ->
  (Bot_IsValid V MAX (Bot_Patch b p) = None <-> patch_passes V MAX p = true).
Proof.
  rewrite !Bot_IsValid_none_iff, !holds_all_split.
  destruct (Bot_Patch_keeps b p) as (E1 & E2 & E3 & E4 & _).
  cbn [holds]. rewrite E1, E2, E3, E4.
  intros ((H1 & H2 & H3 & H4 & H5) & Hc & Hu).
  unfold patch_passes, BOT_DISPLAY_NAME_MAX_RUNES in *.
  destruct b as [uid un dn ds cr ca ua da];
    destruct p as [[u|] [n|] [d|]];
    cbn [Bot_Patch Patch_Username Patch_DisplayName Patch_Description
           UserId Username DisplayName Description CreatorId CreateAt UpdateAt
           DeleteAt] in *;
    rewrite ?andb_true_iff; tauto.
Qed.

Lemma Bot_Patch_valid_witness :
  Bot_IsValid example_IsValidUsername 64 (Bot_Patch example_bot example_patch) = None
  /\ Bot_IsValid example_IsValidUsername 64 (Bot_Patch example_bot bad_name_patch)
     <> None.
Proof.
  split.
  - apply (Bot_Patch_valid example_IsValidUsername 64 example_bot example_patch);
      reflexivity.
  - intros H.
    apply (Bot_Patch_valid example_IsValidUsername 64 example_bot bad_name_patch)
      in H; [discriminate H|reflexivity].
Defined.

(* ================================================================= *)
(** ** Cache tokens *)

Lemma Etag_loop_none (l : BotList) (id : string) (t : Z) :
  BotList_Etag_loop l id t = None <-> In None l.
Proof.
  revert id t. induction l as [|[v|] l IH]; intros id t; cbn [BotList_Etag_loop].
  - split; [discriminate|intros []].
  - destruct (UpdateAt v >? t); rewrite IH; cbn [In];
      (split; [now right|intros [H|H]; [discriminate|assumption]]).
  - split; [now left|reflexivity].
Qed.

(** X5.  [BotList.Etag] panics exactly on the collections that hold a nil
    element; on every other collection it returns a token. *)
Theorem BotList_Etag_panics (Etag : list etag_part -> string) (l : BotList) :
  BotList_Etag Etag l = None <-> In None l.
Proof.
  unfold BotList_Etag, BotList_Etag_parts.
  rewrite <- (Etag_loop_none l "0" 0).
  destruct (BotList_Etag_loop l "0" 0) as [[id t]|]; cbn [option_map];
    split; congruence.
Qed.

Lemma Etag_parts_bound (bs : list Bot) :
  exists id t,
    BotList_Etag_parts (map Some bs)
    = Some [PartString id; PartInt64 t; PartInt64 0;
            PartInt (Z.of_nat (List.length bs))]
    /\ 0 <= t
    /\ (forall b, In b bs -> UpdateAt b <= t)
    /\ ((id = "0" /\ t = 0)
        \/ exists b, In b bs /\ id = UserId b /\ t = UpdateAt b /\ 0 < t).
Proof.
  destruct bs as [|b0 bs'] eqn:E.
  { exists "0", 0. repeat split; [lia|intros b []|now left]. }
  rewrite <- E.
  destruct (first_maximum_exists bs) as (pre & b & post & Hs & Hpre & Hpost);
    [rewrite E; discriminate|].
  assert (forall x, In x bs -> UpdateAt x <= UpdateAt b) as Hall.
  { intros x Hx. rewrite Hs in Hx. apply in_app_or in Hx.
    destruct Hx as [Hx|[<-|Hx]]; [specialize (Hpre x Hx)|..|apply Hpost; assumption];
      lia. }
  destruct (Z_lt_le_dec 0 (UpdateAt b)) as [Hpos|Hneg].
  - exists (UserId b), (UpdateAt b).
    rewrite Hs at 1.
    rewrite (BotList_Etag_parts_first_maximum pre post b Hpos Hpre Hpost), <- Hs.
    repeat split; [lia|exact Hall|].
    right. exists b. repeat split; [|assumption].
    rewrite Hs. apply in_or_app. right. now left.
  - exists "0", 0.
    rewrite BotList_Etag_parts_no_positive
      by (intros x Hx; specialize (Hall x Hx); lia).
    repeat split; [lia| |now left].
    intros x Hx. specialize (Hall x Hx). lia.
Qed.

(** X6.  The timestamp in the token of a collection is an upper bound of
    every [UpdateAt] and is never negative; the identity is the sentinel
    with timestamp 0, or the identity of an entity that has that
    timestamp. *)
Theorem BotList_Etag_parts_bound (bs : list Bot) :
  exists id t,
    BotList_Etag_parts (map Some bs)
    = Some [PartString id; PartInt64 t; PartInt64 0;
            PartInt (Z.of_nat (List.length bs))]
    /\ 0 <= t
    /\ (forall b, In b bs -> UpdateAt b <= t)
    /\ ((id = "0" /\ t = 0)
        \/ exists b, In b bs /\ id = UserId b /\ t = UpdateAt b /\ 0 < t).
Proof. exact (Etag_parts_bound bs). Qed.

Lemma Etag_loop_ext (f : Bot -> Bot) (l : BotList) :
  (forall b, UserId (f b) = UserId b /\ UpdateAt (f b) = UpdateAt b) ->
  forall id t,
    BotList_Etag_loop (map (option_map f) l) id t = BotList_Etag_loop l id t.
Proof.
  intros Hf. induction l as [|[v|] l IH]; intros id t; cbn [map option_map BotList_Etag_loop].
  - reflexivity.
  - destruct (Hf v) as [-> ->]. destruct (UpdateAt v >? t); apply IH.
  - reflexivity.
Qed.

(** X7.  Patching the bots of a collection, each with a patch of its own,
    leaves the token of the collection and the token of each bot as they
    were: the tokens change with [UpdateAt] only. *)
Theorem Etag_unchanged_by_Patch (Etag : list etag_part -> string)
  (patch_of : Bot -> BotPatch) (l : BotList) (b : Bot) :
  BotList_Etag Etag (map (option_map (fun x => Bot_Patch x (patch_of x))) l)
  = BotList_Etag Etag l
  /\ Bot_Etag Etag (Bot_Patch b (patch_of b)) = Bot_Etag Etag b.
Proof.
  split.
  - unfold BotList_Etag, BotList_Etag_parts.
    rewrite Etag_loop_ext, length_map; [reflexivity|].
    intros x. destruct (Bot_Patch_keeps x (patch_of x)) as (H1 & _ & _ & H2 & _).
    now split.
  - unfold Bot_Etag.
    destruct (Bot_Patch_keeps b (patch_of b)) as (-> & _ & _ & -> & _).
    reflexivity.
Qed.

(** X8.  Reordering a collection can change the identity in its token
    and nothing else: the timestamp, the delta and the length parts are
    those of every permutation of the collection. *)
Theorem BotList_Etag_parts_permutation (bs bs' : list Bot) :
  Permutation bs bs' ->
  exists id id' t n,
    BotList_Etag_parts (map Some bs)
    = Some [PartString id; PartInt64 t; PartInt64 0; PartInt n]
    /\ BotList_Etag_parts (map Some bs')
       = Some [PartString id'; PartInt64 t; PartInt64 0; PartInt n].
Proof.
  intros P.
  destruct (Etag_parts_bound bs) as (id & t & E & H0 & Hub & Hat).
  destruct (Etag_parts_bound bs') as (id' & t' & E' & H0' & Hub' & Hat').
  exists id, id', t, (Z.of_nat (List.length bs)).
  split; [exact E|]. rewrite E', <- (Permutation_length P).
  assert (t' = t) as ->; [|reflexivity].
  assert (t' <= t) as Hle.
  { destruct Hat' as [[_ ->]|(b & Hb & _ & -> & _)]; [exact H0|].
    apply Hub. apply (Permutation_in b (Permutation_sym P) Hb). }
  assert (t <= t') as Hge.
  { destruct Hat as [[_ ->]|(b & Hb & _ & -> & _)]; [exact H0'|].
    apply Hub'. apply (Permutation_in b P Hb). }
  lia.
Qed.

Lemma BotList_Etag_parts_permutation_witness :
  exists id id' t n,
    BotList_Etag_parts (map Some [bot_a; bot_b; bot_c])
    = Some [PartString id; PartInt64 t; PartInt64 0; PartInt n]
    /\ BotList_Etag_parts (map Some [bot_c; bot_b; bot_a])
       = Some [PartString id'; PartInt64 t; PartInt64 0; PartInt n].
Proof.
  apply (BotList_Etag_parts_permutation [bot_a; bot_b; bot_c] [bot_c; bot_b; bot_a]).
  apply (Permutation_rev [bot_a; bot_b; bot_c]).
Defined.

Example BotList_Etag_order :
  BotList_Etag_parts (map Some [bot_c; bot_b; bot_a])
  = Some [PartString "c"; PartInt64 300; PartInt64 0; PartInt 3].
Proof. reflexivity. Qed.

(* ================================================================= *)
(** ** Projection *)

(** X9.  The user record of a patched bot is the record of the bot with
    the username and display name the patch provides; a patch that
    provides neither, whatever its description, leaves the record as it
    was. *)
Theorem UserFromBotModel_Patch (ToLower : string -> string) (b : Bot) (p : BotPatch) :
  UserFromBotModel ToLower (Bot_Patch b p)
  = UserFromBotModel ToLower
      (Bot_Patch b (mkBotPatch (Patch_Username p) (Patch_DisplayName p) None))
  /\ (Patch_Username p = None -> Patch_DisplayName p = None ->
      UserFromBotModel ToLower (Bot_Patch b p) = UserFromBotModel ToLower b).
Proof.
  destruct p as [[u|] [n|] [d|]]; split; try reflexivity;
    cbn [Patch_Username Patch_DisplayName]; intros; try discriminate; reflexivity.
Qed.

Lemma UserFromBotModel_Patch_witness :
  UserFromBotModel example_ToLower
    (Bot_Patch example_bot (mkBotPatch None None (Some "another text")))
  = UserFromBotModel example_ToLower example_bot.
Proof.
  apply (proj2 (UserFromBotModel_Patch example_ToLower example_bot
                  (mkBotPatch None None (Some "another text")))); reflexivity.
Defined.

(* ================================================================= *)
(** ** What the decoder makes of what the encoder writes *)

Lemma coerce_utf8_cons (ch : utf8.chunk) (chs : list utf8.chunk) :
  fold_right
    (fun ch acc =>
       match ch with
       | utf8.Valid bs => bs
       | utf8.Invalid _ => json.replacement
       end ++ acc) EmptyString (ch :: chs)
  = match ch with
    | utf8.Valid bs => bs
    | utf8.Invalid _ => json.replacement
    end
    ++ fold_right
         (fun ch acc =>
            match ch with
            | utf8.Valid bs => bs
            | utf8.Invalid _ => json.replacement
            end ++ acc) EmptyString chs.
Proof. reflexivity. Qed.

(** A byte that is not UTF-8 is written as the escape of U+FFFD and read
    back as U+FFFD. *)
Lemma scan_string_invalid (c : ascii) (X : string) :
  json.scan_string (json.encode_chunk (utf8.Invalid c) ++ X)
  = json.prepend json.replacement (json.scan_string X).
Proof. reflexivity. Qed.

(** The body of an encoded string, read back up to its closing quote, is
    the string with U+FFFD for every byte that is not UTF-8. *)
Lemma scan_string_encode_body_coerce (s : string) :
  forall rest,
    json.scan_string (json.encode_body s ++ String dquote rest)
    = Some (coerce_utf8 s, rest).
Proof.
  unfold coerce_utf8, json.encode_body.
  induction s as [|c t H IH|c0 c1 t H IH|c0 c1 c2 t H IH|c0 c1 c2 c3 t H IH|c t H IH]
    using rune_ind; intros rest.
  - reflexivity.
  - rewrite (chunks_1 _ _ H).
    rewrite encode_body_cons, coerce_utf8_cons, append_assoc, scan_string_ascii
      by (apply first_size_1; eapply rune_width_1_first; exact H).
    now rewrite (IH rest).
  - rewrite (chunks_2 _ _ _ H).
    rewrite encode_body_cons, coerce_utf8_cons, append_assoc,
      (scan_string_2 c0 c1 t _ H).
    now rewrite (IH rest).
  - rewrite (chunks_3 _ _ _ _ H).
    rewrite encode_body_cons, coerce_utf8_cons, append_assoc,
      (scan_string_3 c0 c1 c2 t _ H).
    now rewrite (IH rest).
  - rewrite (chunks_4 _ _ _ _ _ H).
    rewrite encode_body_cons, coerce_utf8_cons, append_assoc,
      (scan_string_4 c0 c1 c2 c3 t _ H).
    now rewrite (IH rest).
  - rewrite (chunks_0 _ _ H).
    rewrite encode_body_cons, coerce_utf8_cons, append_assoc, scan_string_invalid.
    now rewrite (IH rest).
Qed.

Lemma coerce_utf8_valid (s : string) :
  utf8.ValidString s = true -> coerce_utf8 s = s.
Proof.
  unfold coerce_utf8, utf8.ValidString.
  induction s as [|c t H IH|c0 c1 t H IH|c0 c1 c2 t H IH|c0 c1 c2 c3 t H IH|c t H IH]
    using rune_ind; intros Hv.
  - reflexivity.
  - rewrite (chunks_1 _ _ H) in *. cbn [forallb utf8.is_valid andb] in Hv.
    rewrite coerce_utf8_cons, (IH Hv). reflexivity.
  - rewrite (chunks_2 _ _ _ H) in *. cbn [forallb utf8.is_valid andb] in Hv.
    rewrite coerce_utf8_cons, (IH Hv). reflexivity.
  - rewrite (chunks_3 _ _ _ _ H) in *. cbn [forallb utf8.is_valid andb] in Hv.
    rewrite coerce_utf8_cons, (IH Hv). reflexivity.
  - rewrite (chunks_4 _ _ _ _ _ H) in *. cbn [forallb utf8.is_valid andb] in Hv.
    rewrite coerce_utf8_cons, (IH Hv). reflexivity.
  - rewrite (chunks_0 _ _ H) in Hv. discriminate.
Qed.

Lemma parse_encode_string_coerce (f : nat) (s X : string) :
  json.parse (S f) (json.encode_string s ++ X) = Some (json.Str (coerce_utf8 s), X).
Proof.
  rewrite encode_string_append.
  cbn [json.parse json.skip_space].
  change (json.is_space dquote) with false. cbn iota.
  change (Ascii.eqb dquote "{") with false.
  change (Ascii.eqb dquote "[") with false.
  change (Ascii.eqb dquote dquote) with true. cbn iota.
  now rewrite scan_string_encode_body_coerce.
Qed.

Lemma parse_null (f : nat) (X : string) :
  json.parse (S f) ("null" ++ X) = Some (json.Null, X).
Proof. reflexivity. Qed.

Lemma parse_encode_string_ptr (f : nat) (p : option string) (X : string) :
  json.parse (S f) (encode_string_ptr p ++ X) = Some (ptr_value p, X).
Proof.
  destruct p as [s|]; [apply parse_encode_string_coerce|apply parse_null].
Qed.

(** An object of five string members and three integer members, as
    [Marshal] writes it, followed by any text. *)
Lemma parse_object_5_3_tail (f : nat)
  (k1 k2 k3 k4 k5 k6 k7 k8 s1 s2 s3 s4 s5 : string) (z1 z2 z3 : Z) (rest : string) :
  Forall (fun s => utf8.ValidString s = true) [k1; k2; k3; k4; k5; k6; k7; k8] ->
  json.parse (10 + f)
    ("{" ++ json_key k1 ++ json.encode_string s1
     ++ "," ++ json_key k2 ++ json.encode_string s2
     ++ "," ++ json_key k3 ++ json.encode_string s3
     ++ "," ++ json_key k4 ++ json.encode_string s4
     ++ "," ++ json_key k5 ++ json.encode_string s5
     ++ "," ++ json_key k6 ++ json.encode_int64 z1
     ++ "," ++ json_key k7 ++ json.encode_int64 z2
     ++ "," ++ json_key k8 ++ json.encode_int64 z3
     ++ "}" ++ rest)
  = Some (json.Object
            [(k1, json.Str (coerce_utf8 s1)); (k2, json.Str (coerce_utf8 s2));
             (k3, json.Str (coerce_utf8 s3)); (k4, json.Str (coerce_utf8 s4));
             (k5, json.Str (coerce_utf8 s5));
             (k6, json.Number (strconv.FormatInt z1));
             (k7, json.Number (strconv.FormatInt z2));
             (k8, json.Number (strconv.FormatInt z3))], rest).
Proof.
  intros H.
  repeat match goal with
         | H : Forall _ (_ :: _) |- _ => apply Forall_cons_iff in H; destruct H as [? H]
         end.
  change (10 + f)%nat with (S (S (S (S (S (S (S (S (S (S f)))))))))).
  cbn [append]. rewrite parse_object_open.
  repeat (erewrite members_cons;
          [rewrite ?skip_space_json_key
          |assumption
          |first [ apply parse_encode_string_coerce
                 | apply parse_encode_int64; left; reflexivity ]]).
  erewrite members_last;
    [reflexivity|assumption|apply parse_encode_int64; right; reflexivity].
Qed.

Ltac abstract_pieces :=
  repeat match goal with
         | |- context [json_key ?k] =>
             let x := fresh "piece" in generalize (json_key k); intros x
         | |- context [json.encode_string ?k] =>
             let x := fresh "piece" in generalize (json.encode_string k); intros x
         | |- context [json.encode_int64 ?k] =>
             let x := fresh "piece" in generalize (json.encode_int64 k); intros x
         | |- context [encode_string_ptr ?k] =>
             let x := fresh "piece" in generalize (encode_string_ptr k); intros x
         end.

Lemma Bot_ToJson_tail (b : Bot) (rest : string) :
  Bot_ToJson b ++ rest
  = "{" ++ json_key "user_id" ++ json.encode_string (UserId b)
    ++ "," ++ json_key "username" ++ json.encode_string (Username b)
    ++ "," ++ json_key "display_name" ++ json.encode_string (DisplayName b)
    ++ "," ++ json_key "description" ++ json.encode_string (Description b)
    ++ "," ++ json_key "creator_id" ++ json.encode_string (CreatorId b)
    ++ "," ++ json_key "create_at" ++ json.encode_int64 (CreateAt b)
    ++ "," ++ json_key "update_at" ++ json.encode_int64 (UpdateAt b)
    ++ "," ++ json_key "delete_at" ++ json.encode_int64 (DeleteAt b)
    ++ "}" ++ rest.
Proof.
  unfold Bot_ToJson. abstract_pieces.
  rewrite !append_assoc. reflexivity.
Qed.

Lemma bot_keys_utf8 :
  Forall (fun s => utf8.ValidString s = true)
    ["user_id"; "username"; "display_name"; "description"; "creator_id";
     "create_at"; "update_at"; "delete_at"].
Proof.
  repeat (apply Forall_cons; [vm_compute; reflexivity|]). apply Forall_nil.
Qed.

Lemma parse_Bot_ToJson_tail (f : nat) (b : Bot) (rest : string) :
  json.parse (10 + f) (Bot_ToJson b ++ rest)
  = Some (json.Object (Bot_members (Bot_coerce b)), rest).
Proof.
  rewrite Bot_ToJson_tail.
  exact (parse_object_5_3_tail f _ _ _ _ _ _ _ _ _ _ _ _ _ _ _ _ rest bot_keys_utf8).
Qed.

Lemma Bot_coerce_wf (b : Bot) : Bot_wf b -> Bot_wf (Bot_coerce b).
Proof. intros H. exact H. Qed.

(** An object of three optional-string members, followed by any text. *)
Lemma parse_object_3_tail (f : nat) (k1 k2 k3 : string) (p1 p2 p3 : option string)
  (rest : string) :
  Forall (fun s => utf8.ValidString s = true) [k1; k2; k3] ->
  json.parse (5 + f)
    ("{" ++ json_key k1 ++ encode_string_ptr p1
     ++ "," ++ json_key k2 ++ encode_string_ptr p2
     ++ "," ++ json_key k3 ++ encode_string_ptr p3
     ++ "}" ++ rest)
  = Some (json.Object [(k1, ptr_value p1); (k2, ptr_value p2); (k3, ptr_value p3)],
          rest).
Proof.
  intros H.
  repeat match goal with
         | H : Forall _ (_ :: _) |- _ => apply Forall_cons_iff in H; destruct H as [? H]
         end.
  change (5 + f)%nat with (S (S (S (S (S f))))).
  cbn [append]. rewrite parse_object_open.
  repeat (erewrite members_cons;
          [rewrite ?skip_space_json_key
          |assumption
          |apply parse_encode_string_ptr]).
  erewrite members_last; [reflexivity|assumption|apply parse_encode_string_ptr].
Qed.

Lemma patch_keys_utf8 :
  Forall (fun s => utf8.ValidString s = true)
    ["username"; "display_name"; "description"].
Proof.
  repeat (apply Forall_cons; [vm_compute; reflexivity|]). apply Forall_nil.
Qed.

Lemma store_patch_members (p : BotPatch) :
  store_BotPatch BotPatch_zero
    (json.Object [("username", ptr_value (Patch_Username p));
                  ("display_name", ptr_value (Patch_DisplayName p));
                  ("description", ptr_value (Patch_Description p))])
  = (BotPatch_coerce p, None).
Proof. destruct p as [[u|] [n|] [d|]]; reflexivity. Qed.

Lemma parse_encode_Bot_ptr (f : nat) (x : option Bot) (rest : string) :
  json.parse (10 + f) (encode_Bot_ptr x ++ rest) = Some (elem_value x, rest).
Proof.
  destruct x as [b|]; [apply parse_Bot_ToJson_tail|apply parse_null].
Qed.

(** An encoded element starts with a brace or with the n of null. *)
Lemma encode_Bot_ptr_head (x : option Bot) (X : string) :
  exists c Y, encode_Bot_ptr x ++ X = String c Y
              /\ json.is_space c = false /\ Ascii.eqb c "]" = false.
Proof.
  destruct x as [b|]; cbn [encode_Bot_ptr].
  - unfold Bot_ToJson. cbn [append]. eexists _, _. repeat split.
  - cbn [append]. eexists _, _. repeat split.
Qed.

Lemma encode_elements_cons (x y : option Bot) (l : BotList) :
  encode_elements (x :: y :: l) = encode_Bot_ptr x ++ "," ++ encode_elements (y :: l).
Proof. reflexivity. Qed.

Lemma elements_encode (l : BotList) :
  l <> [] ->
  forall rest, exists f,
    json.elements f (encode_elements l ++ String "]" rest)
    = Some (map elem_value l, rest).
Proof.
  induction l as [|x l IH]; intros Hne rest; [contradiction|].
  destruct l as [|y l].
  - exists 11%nat. cbn [encode_elements map].
    change 11%nat with (S (10 + 0)). cbn [json.elements].
    rewrite parse_encode_Bot_ptr. reflexivity.
  - destruct (IH ltac:(discriminate) rest) as (f1 & E1).
    rewrite encode_elements_cons, !append_assoc.
    remember (encode_elements (y :: l) ++ String "]" rest) as tail eqn:Ht.
    cbn [append].
    pose proof (parse_encode_Bot_ptr 0 x (String "," tail)) as Ep.
    pose proof (proj1 (parse_length _) _ _ _ Ep) as Lp.
    pose proof (proj2 (proj2 (parse_length _)) _ _ _ E1) as Le.
    exists (S (String.length (encode_Bot_ptr x ++ String "," tail))).
    cbn [json.elements].
    rewrite (proj1 (parse_fuel _) _ _ _ Ep) by lia.
    cbn [json.skip_space]. change (json.is_space ",") with false. cbn iota.
    change (Ascii.eqb "," ",") with true. cbn iota.
    rewrite (proj2 (proj2 (parse_fuel _)) _ _ _ E1)
      by (cbn [String.length] in Lp; lia).
    reflexivity.
Qed.

Lemma parse_array (l : BotList) :
  l <> [] ->
  exists f,
    json.parse f ("[" ++ encode_elements l ++ "]")
    = Some (json.Array (map elem_value l), EmptyString).
Proof.
  intros Hne. destruct (elements_encode l Hne EmptyString) as (f & E).
  exists (S f). cbn [append json.parse json.skip_space].
  change (json.is_space "[") with false. cbn iota.
  change (Ascii.eqb "[" "{") with false.
  change (Ascii.eqb "[" "[") with true. cbn iota.
  destruct l as [|x l]; [contradiction|].
  assert (exists c Y, encode_elements (x :: l) ++ "]" = String c Y
                      /\ json.is_space c = false /\ Ascii.eqb c "]" = false)
    as (c & Y & EY & Hs & Hb).
  { destruct l as [|y l].
    - apply encode_Bot_ptr_head.
    - rewrite encode_elements_cons, append_assoc. apply encode_Bot_ptr_head. }
  rewrite EY in *. cbn [json.skip_space]. rewrite Hs, Hb, E. reflexivity.
Qed.

Lemma store_elements_values (l : BotList) :
  Forall elem_wf l ->
  store_elements [] (map elem_value l) = (map (option_map Bot_coerce) l, None).
Proof.
  induction l as [|x l IH]; intros H; [reflexivity|].
  apply Forall_cons_iff in H. destruct H as [Hx Hl].
  cbn [map store_elements hd tl]. rewrite (IH Hl).
  destruct x as [b|]; cbn [elem_value option_map].
  - rewrite (store_Bot_members (Bot_coerce b) (Bot_coerce_wf b Hx)). reflexivity.
  - reflexivity.
Qed.

(** X12.  [BotListFromJson] reads what [BotList.ToJson] wrote back as the
    same collection, in the same order and with its nil elements: each
    bot with U+FFFD for the bytes of its strings that are not UTF-8.  A
    nil and an empty collection both come back empty. *)
Theorem BotListFromJson_ToJson (is_nil : bool) (l : BotList) :
  Forall elem_wf l ->
  BotListFromJson (BotList_ToJson is_nil l) = map (option_map Bot_coerce) l.
Proof.
  intros Hwf. destruct l as [|x l].
  - destruct is_nil; reflexivity.
  - unfold BotList_ToJson.
    destruct (parse_array (x :: l) ltac:(discriminate)) as (f & E).
    unfold BotListFromJson, json.Decode, json.readValue.
    pose proof (proj1 (parse_length _) _ _ _ E) as L.
    rewrite (proj1 (parse_fuel _) _ _ _ E) by lia.
    cbn [store_BotList]. now rewrite (store_elements_values (x :: l) Hwf).
Qed.

Lemma BotListFromJson_ToJson_witness :
  BotListFromJson (BotList_ToJson false example_list)
  = [Some example_bot; None;
     Some (mkBot id26 "testbot" "Test Bot"
             (String "239" (String "191" (str1 "189"))) id26 1000 2000 0)].
Proof.
  apply (BotListFromJson_ToJson false example_list).
  repeat (apply Forall_cons; [cbn; repeat split; vm_compute; congruence|]).
  apply Forall_nil.
Defined.

(* ================================================================= *)
(** ** What the decoder returns is UTF-8 *)

Lemma all_below_spec (P : N -> bool) (n : N) :
  all_below P n = true -> forall k, (k < n)%N -> P k = true.
Proof.
  unfold all_below. induction n as [|n IH] using N.peano_ind; intros H k Hk.
  - lia.
  - rewrite N.peano_rect_succ in H. apply andb_true_iff in H. destruct H as [H1 H2].
    destruct (N.eq_dec k n) as [->|Hne]; [exact H2|]. apply IH; [exact H1|lia].
Qed.

Lemma byte_val_of (n : N) : (n < 256)%N -> byte_val (utf8.byte_of n) = n.
Proof. apply N_ascii_embedding. Qed.

Lemma lor_high (hi bound x : N) :
  all_below (fun x => N.lor hi x =? hi + x)%N bound = true ->
  (x < bound)%N -> N.lor hi x = (hi + x)%N.
Proof.
  intros H Hx. apply N.eqb_eq. exact (all_below_spec _ _ H x Hx).
Qed.

Ltac split_cmp :=
  repeat match goal with
         | |- context [(?a <? ?b)%N] => destruct (N.ltb_spec a b); try lia
         | |- context [(?a <=? ?b)%N] => destruct (N.leb_spec a b); try lia
         | |- context [(?a =? ?b)%N] => destruct (N.eqb_spec a b); try lia
         end.

Lemma valid_1 (a : ascii) :
  (byte_val a < 128)%N -> utf8.ValidString (str1 a) = true.
Proof.
  intros H. unfold utf8.ValidString, str1.
  assert (utf8.rune_width (String a EmptyString) = 1%nat) as R.
  { unfold utf8.rune_width, utf8.first_size. split_cmp; try reflexivity. }
  rewrite (chunks_1 _ _ R). reflexivity.
Qed.

Lemma valid_2 (a0 a1 : ascii) :
  (194 <= byte_val a0 <= 223)%N -> (128 <= byte_val a1 <= 191)%N ->
  utf8.ValidString (String a0 (str1 a1)) = true.
Proof.
  intros H0 H1. unfold utf8.ValidString, str1.
  assert (utf8.rune_width (String a0 (String a1 EmptyString)) = 2%nat) as R.
  { unfold utf8.rune_width, utf8.first_size, utf8.second_ok, utf8.cont, byte_in.
    split_cmp; try reflexivity. }
  rewrite (chunks_2 _ _ _ R). reflexivity.
Qed.

Lemma valid_3 (a0 a1 a2 : ascii) :
  (224 <= byte_val a0 <= 239)%N ->
  (128 <= byte_val a1 <= 191)%N -> (128 <= byte_val a2 <= 191)%N ->
  (byte_val a0 = 224 -> 160 <= byte_val a1)%N ->
  (byte_val a0 = 237 -> byte_val a1 <= 159)%N ->
  utf8.ValidString (String a0 (String a1 (str1 a2))) = true.
Proof.
  intros H0 H1 H2 Hlo Hhi. unfold utf8.ValidString, str1.
  assert (utf8.rune_width (String a0 (String a1 (String a2 EmptyString))) = 3%nat) as R.
  { unfold utf8.rune_width, utf8.first_size, utf8.second_ok, utf8.cont, byte_in.
    split_cmp; try reflexivity. }
  rewrite (chunks_3 _ _ _ _ R). reflexivity.
Qed.

Lemma valid_4 (a0 a1 a2 a3 : ascii) :
  (240 <= byte_val a0 <= 244)%N ->
  (128 <= byte_val a1 <= 191)%N -> (128 <= byte_val a2 <= 191)%N ->
  (128 <= byte_val a3 <= 191)%N ->
  (byte_val a0 = 240 -> 144 <= byte_val a1)%N ->
  (byte_val a0 = 244 -> byte_val a1 <= 143)%N ->
  utf8.ValidString (String a0 (String a1 (String a2 (str1 a3)))) = true.
Proof.
  intros H0 H1 H2 H3 Hlo Hhi. unfold utf8.ValidString, str1.
  assert (utf8.rune_width (String a0 (String a1 (String a2 (String a3 EmptyString))))
          = 4%nat) as R.
  { unfold utf8.rune_width, utf8.first_size, utf8.second_ok, utf8.cont, byte_in.
    split_cmp; try reflexivity. }
  rewrite (chunks_4 _ _ _ _ _ R). reflexivity.
Qed.

Lemma lor_checks :
  all_below (fun x => N.lor 192 x =? 192 + x)%N 32 = true
  /\ all_below (fun x => N.lor 224 x =? 224 + x)%N 16 = true
  /\ all_below (fun x => N.lor 240 x =? 240 + x)%N 8 = true
  /\ all_below (fun x => N.lor 128 x =? 128 + x)%N 64 = true.
Proof. vm_compute. repeat split. Qed.

Lemma land_63 (x : N) : N.land x 63 = (x mod 64)%N.
Proof. exact (N.land_ones x 6). Qed.

Lemma shiftr_6 (x : N) : N.shiftr x 6 = (x / 64)%N.
Proof. exact (N.shiftr_div_pow2 x 6). Qed.

Lemma shiftr_12 (x : N) : N.shiftr x 12 = (x / 4096)%N.
Proof. exact (N.shiftr_div_pow2 x 12). Qed.

Lemma shiftr_18 (x : N) : N.shiftr x 18 = (x / 262144)%N.
Proof. exact (N.shiftr_div_pow2 x 18). Qed.

(** A continuation byte carries six bits. *)
Lemma cont_byte (m : N) :
  (m < 64)%N ->
  byte_val (utf8.byte_of (N.lor 128 m)) = (128 + m)%N.
Proof.
  intros Hm. destruct lor_checks as (_ & _ & _ & H).
  rewrite (lor_high 128 64 _ H Hm). clear H.
  apply byte_val_of. lia.
Qed.

(** [EncodeRune] writes UTF-8 for every value. *)
Lemma EncodeRune_valid (r : N) : utf8.ValidString (utf8.EncodeRune r) = true.
Proof.
  assert (forall x, (x < 32)%N -> byte_val (utf8.byte_of (N.lor 192 x)) = (192 + x)%N)
    as L2 by (intros x Hx; rewrite (lor_high 192 32 x), byte_val_of;
              [reflexivity|lia|apply lor_checks|exact Hx]).
  assert (forall x, (x < 16)%N -> byte_val (utf8.byte_of (N.lor 224 x)) = (224 + x)%N)
    as L3 by (intros x Hx; rewrite (lor_high 224 16 x), byte_val_of;
              [reflexivity|lia|apply lor_checks|exact Hx]).
  assert (forall x, (x < 8)%N -> byte_val (utf8.byte_of (N.lor 240 x)) = (240 + x)%N)
    as L4 by (intros x Hx; rewrite (lor_high 240 8 x), byte_val_of;
              [reflexivity|lia|apply lor_checks|exact Hx]).
  unfold utf8.EncodeRune.
  set (r' := if ((55296 <=? r)%N && (r <=? 57343)%N || (1114111 <? r)%N)%bool
             then utf8.RuneError else r).
  assert ((r' <= 1114111)%N /\ ~ (55296 <= r' <= 57343)%N) as [Hmax Hsur].
  { subst r'. unfold utf8.RuneError.
    destruct (N.leb_spec 55296 r), (N.leb_spec r 57343), (N.ltb_spec 1114111 r);
      cbn [andb orb]; lia. }
  clearbody r'. rewrite !land_63, ?shiftr_6, ?shiftr_12, ?shiftr_18.
  assert (r' / 4096 = r' / 64 / 64)%N as E2 by (now rewrite N.Div0.div_div).
  assert (r' / 262144 = r' / 64 / 64 / 64)%N as E3 by (now rewrite !N.Div0.div_div).
  rewrite E2, E3.
  pose proof (N.div_mod r' 64 ltac:(discriminate)) as D1.
  pose proof (N.mod_lt r' 64 ltac:(discriminate)) as M1.
  pose proof (N.div_mod (r' / 64) 64 ltac:(discriminate)) as D2.
  pose proof (N.mod_lt (r' / 64) 64 ltac:(discriminate)) as M2.
  pose proof (N.div_mod (r' / 64 / 64) 64 ltac:(discriminate)) as D3.
  pose proof (N.mod_lt (r' / 64 / 64) 64 ltac:(discriminate)) as M3.
  generalize dependent (r' / 64 / 64 / 64)%N. intros q3.
  generalize dependent ((r' / 64 / 64) mod 64)%N. intros m3.
  generalize dependent (r' / 64 / 64)%N. intros q2.
  generalize dependent ((r' / 64) mod 64)%N. intros m2.
  generalize dependent (r' / 64)%N. intros q1.
  generalize dependent (r' mod 64)%N. intros m1.
  intros.
  destruct (N.ltb_spec r' 128) as [H1|H1].
  { apply valid_1. rewrite byte_val_of; lia. }
  destruct (N.ltb_spec r' 2048) as [H2|H2].
  { apply valid_2; rewrite ?L2, ?cont_byte by lia; lia. }
  destruct (N.ltb_spec r' 65536) as [H3|H3].
  { apply valid_3; rewrite ?L3, ?cont_byte by lia; lia. }
  apply valid_4; rewrite ?L4, ?cont_byte by lia; lia.
Qed.

Lemma rune_width_1_any (c : ascii) (t X : string) :
  utf8.rune_width (String c t) = 1%nat -> utf8.rune_width (String c X) = 1%nat.
Proof.
  intros H. apply rune_width_1_first in H. unfold utf8.rune_width. now rewrite H.
Qed.

(** UTF-8 followed by a string is UTF-8 exactly when the string is. *)
Lemma ValidString_app (p x : string) :
  utf8.ValidString p = true -> utf8.ValidString (p ++ x) = utf8.ValidString x.
Proof.
  unfold utf8.ValidString.
  induction p as [|c t H IH|c0 c1 t H IH|c0 c1 c2 t H IH|c0 c1 c2 c3 t H IH|c t H IH]
    using rune_ind; intros Hv; cbn [append].
  - reflexivity.
  - rewrite (chunks_1 _ _ H) in Hv.
    rewrite (chunks_1 _ _ (rune_width_1_any c t (t ++ x) H)).
    cbn [forallb utf8.is_valid andb] in *. now apply IH.
  - rewrite (chunks_2 _ _ _ H) in Hv.
    rewrite (chunks_2 _ _ _ (rune_width_2_any c0 c1 t (t ++ x) H)).
    cbn [forallb utf8.is_valid andb] in *. now apply IH.
  - rewrite (chunks_3 _ _ _ _ H) in Hv.
    rewrite (chunks_3 _ _ _ _ (rune_width_3_any c0 c1 c2 t (t ++ x) H)).
    cbn [forallb utf8.is_valid andb] in *. now apply IH.
  - rewrite (chunks_4 _ _ _ _ _ H) in Hv.
    rewrite (chunks_4 _ _ _ _ _ (rune_width_4_any c0 c1 c2 c3 t (t ++ x) H)).
    cbn [forallb utf8.is_valid andb] in *. now apply IH.
  - rewrite (chunks_0 _ _ H) in Hv. discriminate.
Qed.

Lemma prepend_Some_eq (p : string) (o : option (string * string)) (x r : string) :
  json.prepend p o = Some (x, r) -> exists x', o = Some (x', r) /\ x = p ++ x'.
Proof.
  destruct o as [[x' r']|]; simpl; [|discriminate].
  intros [= <- <-]. now exists x'.
Qed.

Lemma unescape_valid (e c : ascii) :
  json.unescape e = Some c -> utf8.ValidString (str1 c) = true.
Proof.
  unfold json.unescape. intros H.
  repeat break_match H; try discriminate; injection H as <-;
    try reflexivity.
  apply orb_true_iff in Heqb. destruct Heqb as [Heqb|Heqb];
    [apply orb_true_iff in Heqb; destruct Heqb as [Heqb|Heqb]|];
    apply Ascii.eqb_eq in Heqb; subst e; reflexivity.
Qed.

Lemma raw_2_valid (c c1 : ascii) (t : string) :
  utf8.rune_width (String c (String c1 t)) = 2%nat ->
  utf8.ValidString (String c (str1 c1)) = true.
Proof.
  intros H. unfold utf8.ValidString, str1.
  now rewrite (chunks_2 _ _ _ (rune_width_2_any c c1 t EmptyString H)).
Qed.

Lemma raw_3_valid (c c1 c2 : ascii) (t : string) :
  utf8.rune_width (String c (String c1 (String c2 t))) = 3%nat ->
  utf8.ValidString (String c (String c1 (str1 c2))) = true.
Proof.
  intros H. unfold utf8.ValidString, str1.
  now rewrite (chunks_3 _ _ _ _ (rune_width_3_any c c1 c2 t EmptyString H)).
Qed.

Lemma raw_4_valid (c c1 c2 c3 : ascii) (t : string) :
  utf8.rune_width (String c (String c1 (String c2 (String c3 t)))) = 4%nat ->
  utf8.ValidString (String c (String c1 (String c2 (str1 c3)))) = true.
Proof.
  intros H. unfold utf8.ValidString, str1.
  now rewrite (chunks_4 _ _ _ _ _ (rune_width_4_any c c1 c2 c3 t EmptyString H)).
Qed.

Lemma ascii_valid (c : ascii) :
  (byte_val c <? 128)%N = true -> utf8.ValidString (str1 c) = true.
Proof. intros H. apply valid_1. now apply N.ltb_lt. Qed.

(** Whatever the text, the string the scanner returns is UTF-8. *)
Lemma scan_string_utf8 (s x r : string) :
  json.scan_string s = Some (x, r) -> utf8.ValidString x = true.
Proof.
  remember (String.length s) as n eqn:Hn.
  assert (String.length s <= n)%nat as Hle by lia. clear Hn.
  revert s x r Hle.
  induction n as [|n IH]; intros s x r Hle H.
  - destruct s; [discriminate|simpl in Hle; lia].
  - destruct s as [|c s1]; [discriminate|].
    cbn [json.scan_string] in H.
    repeat break_match H; try discriminate;
      try (injection H as <- <-; reflexivity);
      apply prepend_Some_eq in H; destruct H as (x' & H & ->);
      (apply IH in H; [|cbn [String.length] in *; lia]);
      (rewrite ValidString_app;
       [exact H
       |first [ reflexivity
              | apply EncodeRune_valid
              | eapply unescape_valid; eassumption
              | apply ascii_valid; assumption
              | eapply raw_2_valid; eassumption
              | eapply raw_3_valid; eassumption
              | eapply raw_4_valid; eassumption ]]).
Qed.

Lemma value_str_utf8 (v : json.value) : value_utf8 v -> str_utf8 v.
Proof. destruct v; cbn; auto. Qed.

Lemma scan_literal_utf8 (s : string) (v : json.value) (r : string) :
  json.scan_literal s = Some (v, r) -> value_utf8 v.
Proof.
  unfold json.scan_literal. intros H.
  repeat break_match H; try discriminate; injection H as <- <-; exact I.
Qed.

(** A parsed string, and the strings among the values of the members of
    a parsed object, are UTF-8. *)
Lemma parse_utf8 (f : nat) :
  (forall s v r, json.parse f s = Some (v, r) -> value_utf8 v)
  /\ (forall s kvs r, json.members f s = Some (kvs, r) ->
                      Forall (fun kv => str_utf8 (snd kv)) kvs).
Proof.
  induction f as [|f (IHp & IHm)]; [split; discriminate|].
  split; intros s x r H.
  - cbn [json.parse] in H.
    repeat break_match H; try discriminate;
      try (injection H as <- <-;
           first [ exact I
                 | apply Forall_nil
                 | eapply scan_string_utf8; eassumption
                 | eapply IHm; eassumption ]).
    eapply scan_literal_utf8; eassumption.
  - cbn [json.members] in H.
    repeat break_match H; try discriminate; injection H as <- <-;
      repeat match goal with
             | E : json.parse _ _ = Some _ |- _ => apply IHp, value_str_utf8 in E
             | E : json.members _ _ = Some _ |- _ => apply IHm in E
             end;
      repeat (apply Forall_cons || apply Forall_nil); assumption.
Qed.

Lemma ParseInt_range (s : string) (z : Z) :
  strconv.ParseInt s = Some z -> int64_range z.
Proof.
  unfold strconv.ParseInt. intros H.
  repeat break_match H; try discriminate;
    repeat match goal with
           | E : (_, _) = (_, _) |- _ => inversion E; subst; clear E
           end;
    injection H as <-;
    match goal with
    | E : int64_rangeb _ = true |- _ =>
        unfold int64_rangeb in E; apply andb_true_iff in E; destruct E as [E1 E2];
        apply Z.leb_le in E1; apply Z.ltb_lt in E2; split; assumption
    end.
Qed.

Lemma store_string_utf8 (cur : string) (v : json.value) :
  utf8.ValidString cur = true -> str_utf8 v ->
  utf8.ValidString (fst (json.store_string cur v)) = true.
Proof. intros Hc Hv. destruct v; cbn; assumption. Qed.

Lemma store_int64_range (cur : Z) (v : json.value) :
  int64_range cur -> int64_range (fst (json.store_int64 cur v)).
Proof.
  intros Hc. destruct v; cbn; try assumption.
  destruct (strconv.ParseInt lit) eqn:E; cbn; [|assumption].
  eapply ParseInt_range; eassumption.
Qed.

Lemma store_bot_field_keeps (b : Bot) (f : bot_field) (v : json.value) :
  Bot_wf b /\ Bot_utf8 b -> str_utf8 v ->
  Bot_wf (fst (store_bot_field b f v)) /\ Bot_utf8 (fst (store_bot_field b f v)).
Proof.
  intros ((W1 & W2 & W3) & (U1 & U2 & U3 & U4 & U5)) Hv.
  destruct f; cbn [store_bot_field];
    match goal with
    | |- context [json.store_string ?c v] =>
        pose proof (store_string_utf8 c v ltac:(assumption) Hv) as Hs;
        destruct (json.store_string c v) as [x e]
    | |- context [json.store_int64 ?c v] =>
        pose proof (store_int64_range c v ltac:(assumption)) as Hs;
        destruct (json.store_int64 c v) as [x e]
    end;
    cbn [fst] in *; unfold Bot_wf, Bot_utf8;
    cbn [UserId Username DisplayName Description CreatorId CreateAt UpdateAt DeleteAt];
    refine (conj (conj _ (conj _ _)) (conj _ (conj _ (conj _ (conj _ _)))));
    assumption.
Qed.

Lemma store_members_inv {T F : Type} (fields : list (string * F))
  (store : T -> F -> json.value -> T * option json.error) (Inv : T -> Prop) :
  (forall t f v, Inv t -> str_utf8 v -> Inv (fst (store t f v))) ->
  forall kvs, Forall (fun kv => str_utf8 (snd kv)) kvs ->
  forall t, Inv t -> Inv (fst (store_members fields store kvs t)).
Proof.
  intros Hstep kvs Hkvs t Ht. unfold store_members.
  generalize (@None json.error). revert t Ht.
  induction Hkvs as [|kv kvs Hkv Hrest IH]; intros t Ht e; cbn [fold_left].
  - exact Ht.
  - destruct (json.lookup_field fields (fst kv)) as [f|]; cbn [fst snd].
    + pose proof (Hstep t f (snd kv) Ht Hkv) as Hk.
      destruct (store t f (snd kv)) as [t' e']. apply IH. exact Hk.
    + apply IH. exact Ht.
Qed.

Lemma Bot_zero_ok : Bot_wf Bot_zero /\ Bot_utf8 Bot_zero.
Proof. split; repeat split; vm_compute; congruence. Qed.

(** What [BotFromJson] returns has its integers in the 64-bit range and
    UTF-8 strings. *)
Lemma BotFromJson_wf_utf8 (data : string) (b : Bot) :
  BotFromJson data = Some b -> Bot_wf b /\ Bot_utf8 b.
Proof.
  unfold BotFromJson, json.Decode, json.readValue.
  destruct (json.parse (S (String.length data)) data) as [[v r]|] eqn:E;
    [|discriminate].
  pose proof (proj1 (parse_utf8 _) _ _ _ E) as Hv.
  destruct v as [|bo|lit|s|l|kvs]; cbn [store_Bot_ptr store_Bot];
    try discriminate; try (intros [= <-]; exact Bot_zero_ok).
  cbn [value_utf8] in Hv.
  pose proof (store_members_inv bot_fields store_bot_field
                (fun b => Bot_wf b /\ Bot_utf8 b) store_bot_field_keeps
                kvs Hv Bot_zero Bot_zero_ok) as Hres.
  destruct (store_members bot_fields store_bot_field kvs Bot_zero) as [b' e].
  intros [= <-]. exact Hres.
Qed.

Lemma store_string_ptr_utf8 (cur : option string) (v : json.value) :
  match cur with Some s => utf8.ValidString s = true | None => True end ->
  str_utf8 v ->
  match fst (json.store_string_ptr cur v) with
  | Some s => utf8.ValidString s = true
  | None => True
  end.
Proof.
  intros Hc Hv. destruct v, cur; cbn; try assumption; try exact I; reflexivity.
Qed.

Lemma store_patch_field_keeps (p : BotPatch) (f : patch_field) (v : json.value) :
  BotPatch_utf8 p -> str_utf8 v -> BotPatch_utf8 (fst (store_patch_field p f v)).
Proof.
  unfold BotPatch_utf8. intros H Hv.
  apply Forall_cons_iff in H. destruct H as [H1 H].
  apply Forall_cons_iff in H. destruct H as [H2 H].
  apply Forall_cons_iff in H. destruct H as [H3 _].
  destruct f; cbn [store_patch_field];
    match goal with
    | |- context [json.store_string_ptr ?c v] =>
        pose proof (store_string_ptr_utf8 c v ltac:(assumption) Hv) as Hs;
        destruct (json.store_string_ptr c v) as [x e]
    end;
    cbn [fst Patch_Username Patch_DisplayName Patch_Description] in *;
    repeat (apply Forall_cons; [assumption|]); apply Forall_nil.
Qed.

(** What [BotPatchFromJson] returns provides UTF-8 strings only. *)
Lemma BotPatchFromJson_utf8 (data : string) (p : BotPatch) :
  BotPatchFromJson data = Some p -> BotPatch_utf8 p.
Proof.
  unfold BotPatchFromJson, json.Decode, json.readValue.
  destruct (json.parse (S (String.length data)) data) as [[v r]|] eqn:E;
    [|discriminate].
  pose proof (proj1 (parse_utf8 _) _ _ _ E) as Hv.
  assert (BotPatch_utf8 BotPatch_zero) as Hz
      by (repeat (apply Forall_cons; [exact I|]); apply Forall_nil).
  destruct v as [|bo|lit|s|l|kvs]; cbn [store_BotPatch];
    try discriminate; try (intros [= <-]; exact Hz).
  cbn [value_utf8] in Hv.
  pose proof (store_members_inv patch_fields store_patch_field BotPatch_utf8
                store_patch_field_keeps kvs Hv BotPatch_zero Hz) as Hres.
  destruct (store_members patch_fields store_patch_field kvs BotPatch_zero) as [p' e].
  destruct e; [discriminate|]. intros [= <-]. exact Hres.
Qed.

(* ================================================================= *)
(** ** Exact round trips *)

Lemma append_nil_r (a : string) : a ++ "" = a.
Proof. induction a as [|x a IH]; simpl; [reflexivity|now rewrite IH]. Qed.

(** What [Marshal] makes of a string is UTF-8. *)
Lemma coerce_utf8_is_valid (s : string) : utf8.ValidString (coerce_utf8 s) = true.
Proof.
  unfold coerce_utf8.
  induction s as [|c t H IH|c0 c1 t H IH|c0 c1 c2 t H IH|c0 c1 c2 c3 t H IH|c t H IH]
    using rune_ind.
  - reflexivity.
  - rewrite (chunks_1 _ _ H), coerce_utf8_cons, ValidString_app; [exact IH|].
    apply ascii_valid, first_size_1. eapply rune_width_1_first; exact H.
  - rewrite (chunks_2 _ _ _ H), coerce_utf8_cons, ValidString_app; [exact IH|].
    eapply raw_2_valid; exact H.
  - rewrite (chunks_3 _ _ _ _ H), coerce_utf8_cons, ValidString_app; [exact IH|].
    eapply raw_3_valid; exact H.
  - rewrite (chunks_4 _ _ _ _ _ H), coerce_utf8_cons, ValidString_app; [exact IH|].
    eapply raw_4_valid; exact H.
  - rewrite (chunks_0 _ _ H), coerce_utf8_cons, ValidString_app; [exact IH|].
    reflexivity.
Qed.

Lemma coerce_utf8_fixed (s : string) :
  coerce_utf8 s = s <-> utf8.ValidString s = true.
Proof.
  split; [|apply coerce_utf8_valid].
  intros E. rewrite <- E. apply coerce_utf8_is_valid.
Qed.

Lemma Bot_coerce_fixed (b : Bot) : Bot_coerce b = b <-> Bot_utf8 b.
Proof.
  unfold Bot_utf8. rewrite <- !coerce_utf8_fixed.
  destruct b as [uid un dn ds cr ca ua da]. unfold Bot_coerce.
  cbn [UserId Username DisplayName Description CreatorId CreateAt UpdateAt DeleteAt].
  split.
  - intros [= H1 H2 H3 H4 H5]. repeat split; assumption.
  - intros (H1 & H2 & H3 & H4 & H5). now rewrite H1, H2, H3, H4, H5.
Qed.

Lemma BotPatch_coerce_fixed (p : BotPatch) : BotPatch_coerce p = p <-> BotPatch_utf8 p.
Proof.
  unfold BotPatch_utf8, BotPatch_coerce.
  destruct p as [u n d].
  cbn [Patch_Username Patch_DisplayName Patch_Description].
  assert (forall o : option string,
             option_map coerce_utf8 o = o
             <-> match o with
                 | Some s => utf8.ValidString s = true
                 | None => True
                 end) as Ho.
  { intros [s|]; cbn [option_map]; [|tauto].
    rewrite <- coerce_utf8_fixed. split; [now intros [= ->]|now intros ->]. }
  split.
  - intros [= H1 H2 H3].
    repeat (apply Forall_cons; [apply Ho; assumption|]). apply Forall_nil.
  - intros H.
    apply Forall_cons_iff in H. destruct H as [H1 H].
    apply Forall_cons_iff in H. destruct H as [H2 H].
    apply Forall_cons_iff in H. destruct H as [H3 _].
    apply Ho in H1, H2, H3. now rewrite H1, H2, H3.
Qed.

Lemma decode_encode_Bot (b : Bot) (rest : string) :
  Bot_wf b -> BotFromJson (Bot_ToJson b ++ rest) = Some (Bot_coerce b).
Proof.
  intros Hwf.
  unfold BotFromJson, json.Decode, json.readValue.
  destruct (Bot_ToJson_length b) as (f & Hf).
  assert (S (String.length (Bot_ToJson b ++ rest))
          = (10 + (f + String.length rest))%nat) as ->
      by (rewrite length_append; lia).
  rewrite parse_Bot_ToJson_tail.
  now rewrite (store_Bot_members (Bot_coerce b) (Bot_coerce_wf b Hwf)).
Qed.

(** X10.  Decoding what [ToJson] wrote, with any text after it, gives the
    bot with U+FFFD for every byte of its strings that is not UTF-8: the
    decoder reads one value and leaves the rest, never returns nil here
    and returns the bot itself exactly when its strings are UTF-8. *)
Theorem BotFromJson_ToJson_coerce (b : Bot) (rest : string) :
  Bot_wf b ->
  BotFromJson (Bot_ToJson b ++ rest) = Some (Bot_coerce b)
  /\ (BotFromJson (Bot_ToJson b) = Some b <-> Bot_utf8 b).
Proof.
  intros Hwf. split; [exact (decode_encode_Bot b rest Hwf)|].
  rewrite <- (append_nil_r (Bot_ToJson b)), (decode_encode_Bot b EmptyString Hwf),
    <- Bot_coerce_fixed.
  split; [now intros [= ->]|now intros ->].
Qed.

Lemma BotFromJson_ToJson_coerce_witness :
  BotFromJson (Bot_ToJson raw_byte_bot ++ " trailing")
  = Some (mkBot id26 "testbot" "Test Bot"
            (String "239" (String "191" (str1 "189"))) id26 1000 2000 0).
Proof.
  apply (BotFromJson_ToJson_coerce raw_byte_bot " trailing").
  repeat split; vm_compute; congruence.
Defined.

(** X13.  Whatever the text, a bot that [BotFromJson] returns has UTF-8
    strings and integers in the 64-bit range, so that writing it with
    [ToJson] and decoding it again gives the same bot. *)
Theorem BotFromJson_normal (data : string) (b : Bot) :
  BotFromJson data = Some b ->
  Bot_wf b /\ Bot_utf8 b /\ BotFromJson (Bot_ToJson b) = Some b.
Proof.
  intros H. destruct (BotFromJson_wf_utf8 data b H) as [Hwf Hutf].
  repeat split; try apply Hwf; try apply Hutf.
  rewrite <- (append_nil_r (Bot_ToJson b)), (decode_encode_Bot b EmptyString Hwf).
  f_equal. now apply Bot_coerce_fixed.
Qed.

Lemma BotFromJson_normal_witness :
  BotFromJson
    (Bot_ToJson (mkBot "" "" "" (String "239" (String "191" (str1 "189"))) "" 0 7 0))
  = Some (mkBot "" "" "" (String "239" (String "191" (str1 "189"))) "" 0 7 0).
Proof.
  apply (BotFromJson_normal (json_text "{'description':'\ud83d','update_at':7}")).
  vm_compute. reflexivity.
Defined.

Lemma decode_encode_BotPatch (p : BotPatch) :
  exists data,
    BotPatch_ToJson p = Some data
    /\ BotPatchFromJson data = Some (BotPatch_coerce p).
Proof.
  eexists. split; [reflexivity|].
  unfold BotPatchFromJson, json.Decode, json.readValue.
  match goal with
  | |- context [json.parse (S (String.length ?d)) ?d] =>
      assert (S (String.length d) = (5 + (String.length d - 4))%nat) as ->
  end.
  { assert (String.length (json_key "username") = 11%nat) as Hk
        by (vm_compute; reflexivity).
    rewrite !length_append, Hk. lia. }
  rewrite (parse_object_3_tail _ _ _ _ _ _ _ EmptyString patch_keys_utf8).
  now rewrite store_patch_members.
Qed.

(** X11.  [BotPatch.ToJson] never returns nil, and [BotPatchFromJson]
    reads what it wrote back as a patch in which an absent field is
    absent and a provided one is provided, the empty string included,
    with U+FFFD for the bytes that are not UTF-8: the patch itself
    exactly when the strings it provides are UTF-8. *)
Theorem BotPatchFromJson_ToJson (p : BotPatch) :
  exists data,
    BotPatch_ToJson p = Some data
    /\ BotPatchFromJson data = Some (BotPatch_coerce p)
    /\ (BotPatchFromJson data = Some p <-> BotPatch_utf8 p).
Proof.
  destruct (decode_encode_BotPatch p) as (data & E & D).
  exists data. split; [exact E|]. split; [exact D|].
  rewrite D, <- BotPatch_coerce_fixed.
  split; [now intros [= ->]|now intros ->].
Qed.

(** X14.  Whatever the text, a patch that [BotPatchFromJson] returns
    provides UTF-8 strings only, and writing it with [ToJson] and
    decoding it again gives the same patch. *)
Theorem BotPatchFromJson_normal (data : string) (p : BotPatch) :
  BotPatchFromJson data = Some p ->
  BotPatch_utf8 p
  /\ exists data', BotPatch_ToJson p = Some data'
                   /\ BotPatchFromJson data' = Some p.
Proof.
  intros H. pose proof (BotPatchFromJson_utf8 data p H) as Hutf.
  split; [exact Hutf|].
  destruct (decode_encode_BotPatch p) as (data' & E & D).
  exists data'. split; [exact E|]. rewrite D. f_equal.
  now apply BotPatch_coerce_fixed.
Qed.

Lemma BotPatchFromJson_normal_witness :
  BotPatch_utf8 (mkBotPatch (Some (String "239" (String "191" (str1 "189")))) None None).
Proof.
  apply (BotPatchFromJson_normal
           (json_text "{'username':'\ud83d','description':null}")).
  vm_compute. reflexivity.
Defined.

(* ================================================================= *)
(** ** Runes and bytes *)

(** A string has at most as many runes as bytes, and at most four bytes
    to the rune. *)
Lemma rune_count_bounds (s : string) :
  utf8.RuneCountInString s <= len s <= 4 * utf8.RuneCountInString s.
Proof.
  unfold utf8.RuneCountInString, len.
  assert (List.length (utf8.chunks s) <= String.length s
          <= 4 * List.length (utf8.chunks s))%nat; [|lia].
  induction s as [|c t H IH|c0 c1 t H IH|c0 c1 c2 t H IH|c0 c1 c2 c3 t H IH|c t H IH]
    using rune_ind.
  - cbn. lia.
  - rewrite (chunks_1 _ _ H). cbn [List.length String.length]. lia.
  - rewrite (chunks_2 _ _ _ H). cbn [List.length String.length]. lia.
  - rewrite (chunks_3 _ _ _ _ H). cbn [List.length String.length]. lia.
  - rewrite (chunks_4 _ _ _ _ _ H). cbn [List.length String.length]. lia.
  - rewrite (chunks_0 _ _ H). cbn [List.length String.length]. lia.
Qed.

(** X15.  The two rune bounds in bytes: a display name or description of
    no more bytes than its bound passes its rule, and a bot whose
    display name or description has more than four times its bound in
    bytes is never valid. *)
Theorem Bot_IsValid_byte_bounds (V : string -> bool) (MAX : Z) (b : Bot) :
  (len (DisplayName b) <= MAX -> holds V MAX b RuleDisplayName = true)
  /\ (len (Description b) <= 1024 -> holds V MAX b RuleDescription = true)
  /\ (4 * MAX < len (DisplayName b) \/ 4096 < len (Description b) ->
      Bot_IsValid V MAX b <> None).
Proof.
  pose proof (rune_count_bounds (DisplayName b)) as Hn.
  pose proof (rune_count_bounds (Description b)) as Hd.
  repeat split.
  - intros H. cbn [holds]. unfold BOT_DISPLAY_NAME_MAX_RUNES. apply Z.leb_le. lia.
  - intros H. cbn [holds]. apply Z.leb_le. lia.
  - intros H E. rewrite Bot_IsValid_none_iff in E.
    pose proof (E RuleDisplayName) as E1. pose proof (E RuleDescription) as E2.
    cbn [holds] in E1, E2. unfold BOT_DISPLAY_NAME_MAX_RUNES in E1.
    apply Z.leb_le in E1. apply Z.leb_le in E2. lia.
Qed.

Lemma Bot_IsValid_byte_bounds_witness :
  holds example_IsValidUsername 64 example_bot RuleDescription = true
  /\ Bot_IsValid example_IsValidUsername 64
       (mkBot id26 "testbot" "" (repeat_string 4097 "d") id26 1 1 0) <> None.
Proof.
  split.
  - apply (Bot_IsValid_byte_bounds example_IsValidUsername 64 example_bot).
    vm_compute. discriminate.
  - apply (Bot_IsValid_byte_bounds example_IsValidUsername 64).
    right. vm_compute. reflexivity.
Defined.
